(** * Access control of the CRM application shell

    A shallow embedding of [src/contexts/PermissionsContext.tsx]
    (the permissions provider, [usePermissions], [hasPageAccess],
    [fetchPermissions], [refreshPermissions]) and of the route guards of
    the application root ([ProtectedRoute], [AuthRoute], [AppRouter]).

    Conventions.
    - JavaScript strings are [string]; [null]/[undefined] is [None].
    - A function component is a function from the values of its hooks to
      what it returns; the calls it makes on the way (state setters,
      service calls, console output) are recorded, in program order, as a
      list of [Action]s.
    - An [async] function is split at its single [await]: the part that
      runs synchronously when it is called, and the part that runs when
      the awaited promise settles. *)

From Stdlib Require Import String Ascii List Bool Arith Lia.
Import ListNotations.
Local Open Scope string_scope.
Local Open Scope list_scope.

(* ================================================================= *)
(** ** Data model *)

(** [interface PagePermission]. *)
Record PagePermission := mkPagePermission {
  id : string;
  page_name : string;
  route : string;
  admin_access : bool;
  manager_access : bool;
  user_access : bool
}.

(** The identity handle handed out by [useAuth].  [user_ref] stands for the
    identity of the JavaScript object (what [Object.is] compares in a
    dependency array); [user_id] is its [id] field. *)
Record User := mkUser {
  user_ref : nat;
  user_id : string
}.

(** What [useAuth()] returns: [{ user, loading }]. *)
Record Auth := mkAuth {
  user : option User;
  authLoading : bool
}.

(* ================================================================= *)
(** ** [hasPageAccess] *)

Module Access.

(** [route.replace(/\/$/, '')]: the pattern is anchored at the end of the
    input, so the only possible match is a final slash. *)
Fixpoint replace_trailing_slash (s : string) : string :=
  match s with
  | EmptyString => EmptyString
  | String c EmptyString =>
      if Ascii.eqb c "/"%char then EmptyString else String c EmptyString
  | String c rest => String c (replace_trailing_slash rest)
  end.

(** [route === '/' ? '/dashboard' : route.replace(/\/$/, '')] *)
Definition normalizedRoute (r : string) : string :=
  if String.eqb r "/" then "/dashboard" else replace_trailing_slash r.

(** [permissions.find(p => p.route === normalizedRoute)] followed by the
    [switch (userRole)]. *)
Definition hasPageAccess
    (permissions : list PagePermission) (userRole : string) (r : string) : bool :=
  let n := normalizedRoute r in
  match find (fun p => String.eqb (route p) n) permissions with
  | None => true
  | Some permission =>
      if String.eqb userRole "admin" then admin_access permission
      else if String.eqb userRole "manager" then manager_access permission
      else if String.eqb userRole "user" then user_access permission
      else user_access permission
  end.

(** The record the lookup selects: the first one, in list order, whose
    [route] is the given string. *)
Inductive FirstMatch (n : string) : list PagePermission -> PagePermission -> Prop :=
| FirstHere p rest : route p = n -> FirstMatch n (p :: rest) p
| FirstLater q rest p : route q <> n -> FirstMatch n rest p -> FirstMatch n (q :: rest) p.

Definition NoMatch (n : string) (permissions : list PagePermission) : Prop :=
  forall p, In p permissions -> route p <> n.

(** Whether the last character of a route is a slash. *)
Fixpoint ends_with_slash (s : string) : bool :=
  match s with
  | EmptyString => false
  | String c EmptyString => Ascii.eqb c "/"%char
  | String _ rest => ends_with_slash rest
  end.

End Access.

(* ================================================================= *)
(** ** The permissions resolver: [PermissionsProvider] *)

Module Resolver.

(** The four [useState] cells of the provider. *)
Record PState := mkPState {
  userRole : string;
  permissions : list PagePermission;
  loading : bool;
  hasFetched : bool
}.

(** [useState('user')], [useState([])], [useState(true)], [useState(false)]. *)
Definition initialState : PState := mkPState "user" [] true false.

(** What the provider's code does to the outside, in program order: the
    four state setters, the two service calls, and console output. *)
Inductive Action :=
| setUserRole (r : string)
| setPermissions (ps : list PagePermission)
| setLoading (b : bool)
| setHasFetched (b : bool)
| rpc_get_user_role (p_user_id : string)
| select_page_permissions
| console_error (msg : string) (err : string).

(** State updates are queued and applied in the order the setters were
    called; the other actions leave the cells alone. *)
Definition apply (s : PState) (a : Action) : PState :=
  match a with
  | setUserRole r => mkPState r (permissions s) (loading s) (hasFetched s)
  | setPermissions ps => mkPState (userRole s) ps (loading s) (hasFetched s)
  | setLoading b => mkPState (userRole s) (permissions s) b (hasFetched s)
  | setHasFetched b => mkPState (userRole s) (permissions s) (loading s) b
  | rpc_get_user_role _ => s
  | select_page_permissions => s
  | console_error _ _ => s
  end.

Definition applyAll (s : PState) (acts : list Action) : PState :=
  fold_left apply acts s.

(** Calls to the permission store made by a run of actions. *)
Definition isRoleLookup (a : Action) : bool :=
  match a with rpc_get_user_role _ => true | _ => false end.

Definition isPermissionListing (a : Action) : bool :=
  match a with select_page_permissions => true | _ => false end.

Definition roleLookups (acts : list Action) : list Action := filter isRoleLookup acts.
Definition permissionListings (acts : list Action) : list Action :=
  filter isPermissionListing acts.

(** The [{ data, error }] object a service call resolves to. *)
Record Response (A : Type) := mkResponse {
  data : option A;
  error : option string
}.
Arguments mkResponse {A} _ _.
Arguments data {A} _.
Arguments error {A} _.

(** How [await Promise.all([...])] ends: both calls resolved, or the
    combined promise rejected and control goes to [catch]. *)
Inductive Settlement :=
| Fulfilled (roleResult : Response string)
            (permissionsResult : Response (list PagePermission))
| Rejected (err : string).

(** State of the promise an [async] function returned, once its
    synchronous part has run: the body ran to its end, or it is suspended
    at the [await] on the two service calls. *)
Inductive Promise := Resolved | AwaitingServices.

(** The variables [fetchPermissions] closes over; they are exactly its
    [useCallback] dependencies [[user, hasFetched]]. *)
Record FetchEnv := mkFetchEnv {
  env_user : option User;
  env_hasFetched : bool
}.

(** [roleResult.data || 'user']: the empty string is falsy. *)
Definition role_or_user (d : option string) : string :=
  match d with
  | None => "user"
  | Some EmptyString => "user"
  | Some r => r
  end.

(** [permissionsResult.data || []] *)
Definition data_or_empty (d : option (list PagePermission)) : list PagePermission :=
  match d with
  | None => []
  | Some ps => ps
  end.

(** [fetchPermissions], from the call to the [await] (or to its [return]). *)
Definition fetchPermissions_call (env : FetchEnv) : list Action * Promise :=
  match env_user env with
  | None =>
      ([setUserRole "user"; setPermissions []; setLoading false; setHasFetched false],
       Resolved)
  | Some u =>
      if env_hasFetched env then ([], Resolved)
      else ([setLoading true; rpc_get_user_role (user_id u); select_page_permissions],
            AwaitingServices)
  end.

(** [fetchPermissions], from the [await] to the end: the rest of the [try]
    block or the [catch] block, then [finally]. *)
Definition fetchPermissions_resume (o : Settlement) : list Action :=
  match o with
  | Fulfilled roleResult permissionsResult =>
      (match error roleResult with
       | Some e => [console_error "Error fetching user role:" e; setUserRole "user"]
       | None => [setUserRole (role_or_user (data roleResult))]
       end)
      ++
      (match error permissionsResult with
       | Some e => [console_error "Error fetching permissions:" e; setPermissions []]
       | None => [setPermissions (data_or_empty (data permissionsResult))]
       end)
      ++ [setHasFetched true]
      ++ [setLoading false]
  | Rejected e =>
      [console_error "Error fetching permissions:" e; setUserRole "user"; setPermissions []]
      ++ [setLoading false]
  end.

(** [refreshPermissions]: [setHasFetched(false); await fetchPermissions();].
    The [fetchPermissions] it calls is the one it closed over.  Nothing
    follows the [await], so its promise settles with that of the call. *)
Definition refreshPermissions_call (fetchPermissions : FetchEnv) : list Action * Promise :=
  let '(acts, pr) := fetchPermissions_call fetchPermissions in
  (setHasFetched false :: acts, pr).

(** A fetch that goes through, as one state transformer: a call that
    passes both early returns (a user, [hasFetched] false in the closure),
    then the rest of the function once the services have settled. *)
Definition fetchAttempt (s : PState) (u : User) (o : Settlement) : PState :=
  applyAll s (fst (fetchPermissions_call (mkFetchEnv (Some u) false))
              ++ fetchPermissions_resume o).

(** *** Hooks across renders *)

(** [Object.is] on the [user] dependency.  An object has one [id], so two
    handles denote the same object exactly when both fields agree. *)
Definition user_eqb (u v : User) : bool :=
  Nat.eqb (user_ref u) (user_ref v) && String.eqb (user_id u) (user_id v).

Definition same_user (u v : option User) : bool :=
  match u, v with
  | None, None => true
  | Some x, Some y => user_eqb x y
  | _, _ => false
  end.

(** The dependency [user?.id] and its comparison. *)
Definition optional_id (u : option User) : option string :=
  match u with
  | Some x => Some (user_id x)
  | None => None
  end.

Definition same_id (x y : option string) : bool :=
  match x, y with
  | None, None => true
  | Some i, Some j => String.eqb i j
  | _, _ => false
  end.

(** What React keeps of the previous render: the hook inputs it saw
    (every dependency of the two effects is among them or is the
    memoised callback) and the [fetchPermissions] that [useCallback]
    returned. *)
Record Rendered := mkRendered {
  seen : Auth;
  fetchPermissions : FetchEnv
}.

(** A mounted provider: its state cells and its previous render, if any. *)
Record Provider := mkProvider {
  state : PState;
  last : option Rendered
}.

Definition mount : Provider := mkProvider initialState None.

(** [useCallback(async () => {...}, [user, hasFetched])]: the cached
    function when both dependencies are unchanged, else a new function
    closing over this render's values.  The flag tells whether the
    function object is a new one. *)
Definition useCallback_fetchPermissions (a : Auth) (p : Provider) : FetchEnv * bool :=
  let fresh := mkFetchEnv (user a) (hasFetched (state p)) in
  match last p with
  | None => (fresh, true)
  | Some r =>
      let cached := fetchPermissions r in
      if same_user (env_user cached) (user a)
         && Bool.eqb (env_hasFetched cached) (hasFetched (state p))
      then (cached, false)
      else (fresh, true)
  end.

(** Body of the first effect ("Fetch on user change"). *)
Definition effect_fetch (a : Auth) (f : FetchEnv) : list Action :=
  if authLoading a then []
  else match user a with
       | Some _ => fst (fetchPermissions_call f)
       | None =>
           [setUserRole "user"; setPermissions []; setLoading false; setHasFetched false]
       end.

(** Body of the second effect ("Reset hasFetched when user changes"). *)
Definition effect_reset : list Action := [setHasFetched false].

(** [[user, authLoading, fetchPermissions]] against the previous render. *)
Definition fetch_deps_changed (a : Auth) (newCallback : bool) (prev : option Rendered) : bool :=
  match prev with
  | None => true
  | Some r =>
      negb (same_user (user (seen r)) (user a))
      || negb (Bool.eqb (authLoading (seen r)) (authLoading a))
      || newCallback
  end.

(** [[user?.id]] against the previous render. *)
Definition reset_deps_changed (a : Auth) (prev : option Rendered) : bool :=
  match prev with
  | None => true
  | Some r => negb (same_id (optional_id (user (seen r))) (optional_id (user a)))
  end.

(** One render and its commit: the effects whose dependencies changed run
    in the order the component declares them, the fetch effect first and
    the reset effect second; the queued state updates are then applied. *)
Definition commit (a : Auth) (p : Provider) : Provider * list Action :=
  let '(f, newCallback) := useCallback_fetchPermissions a p in
  let acts :=
    (if fetch_deps_changed a newCallback (last p) then effect_fetch a f else [])
    ++ (if reset_deps_changed a (last p) then effect_reset else []) in
  (mkProvider (applyAll (state p) acts) (Some (mkRendered a f)), acts).

(** A state update schedules another render with the same hook inputs;
    [rerender n] is [n] renders in a row. *)
Fixpoint rerender (n : nat) (a : Auth) (p : Provider) : Provider * list Action :=
  match n with
  | 0 => (p, [])
  | S k =>
      let '(p1, acts1) := commit a p in
      let '(p2, acts2) := rerender k a p1 in
      (p2, acts1 ++ acts2)
  end.

(** What can happen to a mounted provider. *)
Inductive Event :=
| AuthChange (a : Auth)
| ServicesSettle (o : Settlement)
| Refresh.

(** One event and the renders it causes.  A settlement runs the rest of a
    suspended [fetchPermissions]; [Refresh] is a consumer calling the
    [refreshPermissions] of the latest render. *)
Definition step (p : Provider) (e : Event) : Provider * list Action :=
  match e with
  | AuthChange a => rerender 2 a p
  | ServicesSettle o =>
      let acts := fetchPermissions_resume o in
      let p1 := mkProvider (applyAll (state p) acts) (last p) in
      match last p with
      | None => (p1, acts)
      | Some r => let '(p2, acts2) := rerender 2 (seen r) p1 in (p2, acts ++ acts2)
      end
  | Refresh =>
      match last p with
      | None => (p, [])
      | Some r =>
          let acts := fst (refreshPermissions_call (fetchPermissions r)) in
          let p1 := mkProvider (applyAll (state p) acts) (last p) in
          let '(p2, acts2) := rerender 2 (seen r) p1 in (p2, acts ++ acts2)
      end
  end.

(** Events that neither move to another identity nor force a refresh:
    renders in which the user has the given id, and settlements. *)
Definition keepsIdentity (uid : string) (e : Event) : bool :=
  match e with
  | AuthChange a => same_id (optional_id (user a)) (Some uid)
  | ServicesSettle _ => true
  | Refresh => false
  end.

Fixpoint run (p : Provider) (es : list Event) : Provider * list Action :=
  match es with
  | [] => (p, [])
  | e :: rest =>
      let '(p1, acts1) := step p e in
      let '(p2, acts2) := run p1 rest in
      (p2, acts1 ++ acts2)
  end.

(** The invariant behind "one fetch per identity": the provider has
    rendered for this id and [hasFetched] is set. *)
Definition FetchedFor (uid : string) (p : Provider) : Prop :=
  exists r, last p = Some r
            /\ optional_id (user (seen r)) = Some uid
            /\ hasFetched (state p) = true.

(** As many role lookups as permission listings. *)
Definition paired (acts : list Action) : Prop :=
  length (roleLookups acts) = length (permissionListings acts).

(** A provider at rest after a render: the memoised [fetchPermissions]
    of its latest render closes over that render's user and over the
    current value of [hasFetched]. *)
Definition Stable (p : Provider) : Prop :=
  exists r, last p = Some r
            /\ fetchPermissions r = mkFetchEnv (user (seen r)) (hasFetched (state p)).

(** The user of the latest render, if any. *)
Definition currentUser (p : Provider) : option User :=
  match last p with
  | Some r => user (seen r)
  | None => None
  end.

(** The users that a list of events brings in. *)
Fixpoint usersOf (es : list Event) : list User :=
  match es with
  | [] => []
  | AuthChange a :: rest =>
      match user a with
      | Some u => u :: usersOf rest
      | None => usersOf rest
      end
  | _ :: rest => usersOf rest
  end.

End Resolver.

(* ================================================================= *)
(** ** The context value and [usePermissions] *)

Module Context.

(** [interface PermissionsContextType].  A function-valued field is
    represented by what a call of it does: [hasPageAccess] by its result on
    a route, [refreshPermissions] by the actions of its synchronous part and
    the state of the promise it returns. *)
Record PermissionsContextType := mkValue {
  userRole : string;
  isAdmin : bool;
  isManager : bool;
  permissions : list PagePermission;
  loading : bool;
  hasPageAccess : string -> bool;
  refreshPermissions : list Resolver.Action * Resolver.Promise
}.

(** The [value] a render of [PermissionsProvider] hands to
    [PermissionsContext.Provider]. *)
Definition value (a : Auth) (s : Resolver.PState) (f : Resolver.FetchEnv)
  : PermissionsContextType :=
  mkValue (Resolver.userRole s)
          (String.eqb (Resolver.userRole s) "admin")
          (String.eqb (Resolver.userRole s) "manager")
          (Resolver.permissions s)
          (Resolver.loading s || authLoading a)
          (Access.hasPageAccess (Resolver.permissions s) (Resolver.userRole s))
          (Resolver.refreshPermissions_call f).

(** The components above a consumer in the tree, nearest first. *)
Inductive Ancestor :=
| PermissionsProvider (a : Auth) (s : Resolver.PState) (f : Resolver.FetchEnv)
| OtherComponent (name : string).

(** [useContext(PermissionsContext)]: the value of the nearest provider,
    or the default passed to [createContext], which is [undefined]. *)
Fixpoint useContext (above : list Ancestor) : option PermissionsContextType :=
  match above with
  | [] => None
  | PermissionsProvider a s f :: _ => Some (value a s f)
  | OtherComponent _ :: rest => useContext rest
  end.

(** [usePermissions]: [inl] is the message of the [Error] it throws. *)
Definition usePermissions (above : list Ancestor) : string + PermissionsContextType :=
  match useContext above with
  | None => inl "usePermissions must be used within PermissionsProvider"
  | Some context => inr context
  end.

Definition isProvider (x : Ancestor) : bool :=
  match x with
  | PermissionsProvider _ _ _ => true
  | OtherComponent _ => false
  end.

End Context.

(* ================================================================= *)
(** ** Route guards and the route table *)

Module Guards.

(** The lazily loaded page modules. *)
Inductive Page :=
| Dashboard | Accounts | Contacts | Leads | Meetings | DealsPage | Settings
| Auth_ | NotFound | Notifications | Tasks | StickyHeaderTest.

(** What a component returns.  [PageAccessGuard] is imported from another
    module; here it is only placed in the tree, never evaluated. *)
Inductive Element :=
| LoadingScreen
| PageLoader
| ContentLoader
| Navigate (to : string) (replace : bool)
| FixedSidebarLayout (children : Element)
| PageAccessGuard (children : Element)
| Suspense (fallback : Element) (children : Element)
| Lazy (page : Page).

Definition ProtectedRoute (a : Auth) (children : Element) : Element :=
  if authLoading a then LoadingScreen
  else match user a with
       | None => Navigate "/auth" true
       | Some _ =>
           FixedSidebarLayout (PageAccessGuard (Suspense ContentLoader children))
       end.

Definition AuthRoute (a : Auth) (children : Element) : Element :=
  if authLoading a then LoadingScreen
  else match user a with
       | Some _ => Navigate "/" true
       | None => children
       end.

(** The routes of [AppRouter] that wrap their page in [ProtectedRoute],
    in the order of the table. *)
Definition protectedPages : list (string * Page) :=
  [ ("/dashboard", Dashboard); ("/accounts", Accounts); ("/contacts", Contacts);
    ("/leads", Leads); ("/meetings", Meetings); ("/deals", DealsPage);
    ("/notifications", Notifications); ("/tasks", Tasks); ("/settings", Settings);
    ("*", NotFound) ].

(** [AppRouter]: each route pattern with the element it renders. *)
Definition AppRouter (a : Auth) : list (string * Element) :=
  [ ("/sticky-header-test", Suspense PageLoader (Lazy StickyHeaderTest));
    ("/auth", Suspense PageLoader (AuthRoute a (Lazy Auth_)));
    ("/", Navigate "/dashboard" true) ]
  ++ map (fun r => (fst r, ProtectedRoute a (Lazy (snd r)))) protectedPages.

(** The element of the route declared with a given pattern. *)
Definition routeElement (a : Auth) (pattern : string) : option Element :=
  match find (fun r => String.eqb (fst r) pattern) (AppRouter a) with
  | Some r => Some (snd r)
  | None => None
  end.

(** The page modules an element mounts somewhere in its tree. *)
Fixpoint pagesIn (e : Element) : list Page :=
  match e with
  | FixedSidebarLayout c => pagesIn c
  | PageAccessGuard c => pagesIn c
  | Suspense fb c => pagesIn fb ++ pagesIn c
  | Lazy pg => [pg]
  | _ => []
  end.

(** States of one navigation. *)
Inductive NavState :=
| AuthPending | LoginRedirect | AccessPending | AccessDenied
| ContentPending | ContentReady.

(** What the access guard decided for the current route. *)
Inductive Verdict := Checking | Denied | Allowed.

(** Modelled from the spec: the navigation states of the guard
    composition and the element each one shows.  [PageAccessGuard] and the
    page modules are not among the sources, so the guard's verdict and
    whether the page module has loaded are inputs. *)
Definition navState (v : Verdict) (moduleLoaded : bool) (e : Element) : option NavState :=
  match e with
  | LoadingScreen => Some AuthPending
  | Navigate to _ => if String.eqb to "/auth" then Some LoginRedirect else None
  | FixedSidebarLayout (PageAccessGuard (Suspense _ _)) =>
      match v with
      | Checking => Some AccessPending
      | Denied => Some AccessDenied
      | Allowed => if moduleLoaded then Some ContentReady else Some ContentPending
      end
  | _ => None
  end.




End Guards.

(* ================================================================= *)
(** ** Sample data *)

Module Sample.

Definition settingsRecord : PagePermission :=
  mkPagePermission "p9" "Settings" "/settings" true false true.

Definition leadsRecord : PagePermission :=
  mkPagePermission "p4" "Leads" "/leads" true true false.

Definition alice : User := mkUser 1 "u-alice".
Definition bob : User := mkUser 2 "u-bob".

Definition signedIn (u : User) : Auth := mkAuth (Some u) false.
Definition signedOut : Auth := mkAuth None false.
Definition resolving : Auth := mkAuth None true.

Definition adminReply : Resolver.Settlement :=
  Resolver.Fulfilled (Resolver.mkResponse (Some "admin") None)
                     (Resolver.mkResponse (Some [leadsRecord; settingsRecord]) None).

(** A provider that was mounted while the identity was resolving, then
    saw alice sign in and her fetch come back. *)
Definition aliceFetched : Resolver.Provider :=
  fst (Resolver.run Resolver.mount
         [Resolver.AuthChange resolving;
          Resolver.AuthChange (signedIn alice);
          Resolver.ServicesSettle adminReply]).

End Sample.

(* ================================================================= *)
(** * Properties *)

(** ** The access decision *)

Section AccessFacts.
Import Access Sample.

Lemma find_NoMatch n ps :
  NoMatch n ps -> find (fun p => String.eqb (route p) n) ps = None.
Proof.
  induction ps as [|q ps IH]; intros H; simpl; [reflexivity|].
  destruct (String.eqb_spec (route q) n) as [E|E].
  - exfalso. apply (H q); [left; reflexivity | exact E].
  - apply IH. intros p Hp. apply H. right; exact Hp.
Qed.

Lemma find_FirstMatch n ps p :
  FirstMatch n ps p -> find (fun p => String.eqb (route p) n) ps = Some p.
Proof.
  induction 1 as [p rest E | q rest p E _ IH]; simpl.
  - rewrite (proj2 (String.eqb_eq _ _) E). reflexivity.
  - rewrite (proj2 (String.eqb_neq _ _) E). exact IH.
Qed.

Lemma find_complete n ps :
  NoMatch n ps \/ exists p, FirstMatch n ps p.
Proof.
  induction ps as [|q ps [IH|[p IH]]].
  - left. intros p [].
  - destruct (String.eqb_spec (route q) n) as [E|E].
    + right. exists q. constructor. exact E.
    + left. intros p [<-|Hp]; [exact E | apply IH; exact Hp].
  - destruct (String.eqb_spec (route q) n) as [E|E].
    + right. exists q. constructor. exact E.
    + right. exists p. constructor; assumption.
Qed.

Lemma replace_trailing_slash_app s :
  replace_trailing_slash (s ++ "/")%string = s.
Proof.
  induction s as [|c s IH]; [reflexivity|].
  cbn [append replace_trailing_slash].
  destruct (s ++ "/")%string as [|d t] eqn:E.
  - destruct s; discriminate.
  - rewrite IH. reflexivity.
Qed.

Lemma normalizedRoute_root : normalizedRoute "/" = "/dashboard".
Proof. reflexivity. Qed.

(** Any other route that ends in a slash loses exactly that slash. *)
Lemma normalizedRoute_slash s :
  s <> "" -> normalizedRoute (s ++ "/")%string = s.
Proof.
  intros Hs. unfold normalizedRoute.
  destruct (String.eqb_spec (s ++ "/")%string "/") as [E|_].
  - destruct s as [|c [|d t]]; [contradiction | discriminate | discriminate].
  - apply replace_trailing_slash_app.
Qed.

(** C1. With no record whose [route] is the normalized route the answer
    is [true], for every role.  With the first record in the list that has
    this route, the answer is its [admin_access] for role 'admin', its
    [manager_access] for role 'manager', and its [user_access] for 'user'
    and for any other role string.  One of the two cases always applies. *)
Theorem hasPageAccess_decision permissions userRole r :
  (NoMatch (normalizedRoute r) permissions ->
     hasPageAccess permissions userRole r = true)
  /\ (forall p, FirstMatch (normalizedRoute r) permissions p ->
        (userRole = "admin" ->
           hasPageAccess permissions userRole r = admin_access p)
        /\ (userRole = "manager" ->
              hasPageAccess permissions userRole r = manager_access p)
        /\ (userRole <> "admin" -> userRole <> "manager" ->
              hasPageAccess permissions userRole r = user_access p))
  /\ (NoMatch (normalizedRoute r) permissions
      \/ exists p, FirstMatch (normalizedRoute r) permissions p).
Proof.
  split; [|split; [|apply find_complete]].
  - intros H. unfold hasPageAccess. cbv zeta.
    rewrite (find_NoMatch _ _ H). reflexivity.
  - intros p H. unfold hasPageAccess. cbv zeta.
    rewrite (find_FirstMatch _ _ _ H).
    repeat split.
    + intros ->. reflexivity.
    + intros ->. reflexivity.
    + intros Ha Hm.
      rewrite (proj2 (String.eqb_neq _ _) Ha), (proj2 (String.eqb_neq _ _) Hm).
      destruct (userRole =? "user"); reflexivity.
Qed.

Lemma hasPageAccess_decision_witness :
  hasPageAccess [leadsRecord; settingsRecord] "manager" "/tasks" = true
  /\ hasPageAccess [leadsRecord; settingsRecord] "admin" "/settings/" = true
  /\ hasPageAccess [leadsRecord; settingsRecord] "manager" "/settings/" = false
  /\ hasPageAccess [leadsRecord; settingsRecord] "guest" "/settings/" = true.
Proof.
  pose proof (hasPageAccess_decision [leadsRecord; settingsRecord]) as T.
  assert (F : FirstMatch (normalizedRoute "/settings/")
                [leadsRecord; settingsRecord] settingsRecord).
  { apply FirstLater; [discriminate | apply FirstHere; reflexivity]. }
  split; [| split; [| split]].
  - apply (proj1 (T "manager" "/tasks")).
    intros p [<-|[<-|[]]]; discriminate.
  - exact (proj1 (proj1 (proj2 (T "admin" "/settings/")) _ F) eq_refl).
  - exact (proj1 (proj2 (proj1 (proj2 (T "manager" "/settings/")) _ F)) eq_refl).
  - apply (proj2 (proj2 (proj1 (proj2 (T "guest" "/settings/")) _ F))); discriminate.
Defined.

(** C9. The routes "/", "/dashboard" and "/dashboard/" get the same
    answer for every role and every permission list, because all three
    normalize to "/dashboard": "/" is mapped to it, and any other route
    that ends in a slash loses that one slash and no more. *)
Theorem hasPageAccess_dashboard_aliases permissions userRole :
  hasPageAccess permissions userRole "/" = hasPageAccess permissions userRole "/dashboard"
  /\ hasPageAccess permissions userRole "/dashboard"
     = hasPageAccess permissions userRole "/dashboard/"
  /\ normalizedRoute "/" = "/dashboard"
  /\ normalizedRoute "/dashboard" = "/dashboard"
  /\ normalizedRoute "/dashboard/" = "/dashboard"
  /\ (forall s, s <> "" -> normalizedRoute (s ++ "/")%string = s).
Proof.
  repeat split; try reflexivity. apply normalizedRoute_slash.
Qed.

Lemma hasPageAccess_dashboard_aliases_witness :
  normalizedRoute "/dashboard//" = "/dashboard/"
  /\ hasPageAccess [settingsRecord] "manager" "/"
     = hasPageAccess [settingsRecord] "manager" "/dashboard/".
Proof.
  destruct (hasPageAccess_dashboard_aliases [settingsRecord] "manager")
    as (A & B & _ & _ & _ & N).
  split.
  - apply (N "/dashboard/"). discriminate.
  - exact (eq_trans A B).
Defined.

End AccessFacts.

(** ** The resolver *)

Section ResolverFacts.
Import Resolver Sample.

Lemma user_eqb_eq u v : user_eqb u v = true <-> u = v.
Proof.
  unfold user_eqb. destruct u as [r i], v as [r' i']; simpl.
  rewrite andb_true_iff, Nat.eqb_eq, String.eqb_eq.
  split; [intros [-> ->]; reflexivity | intros E; inversion E; auto].
Qed.

Lemma same_user_eq x y : same_user x y = true <-> x = y.
Proof.
  destruct x as [u|], y as [v|]; simpl;
    try (split; [discriminate | discriminate]); [|tauto].
  rewrite user_eqb_eq. split; [intros ->; reflexivity | intros E; inversion E; auto].
Qed.

Lemma same_id_eq x y : same_id x y = true <-> x = y.
Proof.
  destruct x as [i|], y as [j|]; simpl;
    try (split; [discriminate | discriminate]); [|tauto].
  rewrite String.eqb_eq. split; [intros ->; reflexivity | intros E; inversion E; auto].
Qed.

(** The memoised callback of a render closes over that render's [user]
    and [hasFetched], whether or not it was taken from the cache. *)
Lemma useCallback_env a p :
  fst (useCallback_fetchPermissions a p) = mkFetchEnv (user a) (hasFetched (state p)).
Proof.
  unfold useCallback_fetchPermissions.
  destruct (last p) as [r|]; [|reflexivity].
  destruct (same_user _ _ && Bool.eqb _ _) eqn:E; [|reflexivity].
  apply andb_true_iff in E. destruct E as [Eu Eh].
  apply same_user_eq in Eu. apply Bool.eqb_prop in Eh.
  simpl. destruct (fetchPermissions r) as [cu ch]; simpl in *. congruence.
Qed.

Lemma commit_unfold a p :
  commit a p =
  let f := mkFetchEnv (user a) (hasFetched (state p)) in
  let acts :=
    (if fetch_deps_changed a (snd (useCallback_fetchPermissions a p)) (last p)
     then effect_fetch a f else [])
    ++ (if reset_deps_changed a (last p) then effect_reset else []) in
  (mkProvider (applyAll (state p) acts) (Some (mkRendered a f)), acts).
Proof.
  unfold commit. pose proof (useCallback_env a p) as E.
  destruct (useCallback_fetchPermissions a p) as [f nc]. simpl in E. subst f.
  reflexivity.
Qed.

Lemma applyAll_app s xs ys : applyAll (applyAll s xs) ys = applyAll s (xs ++ ys).
Proof. unfold applyAll. rewrite fold_left_app. reflexivity. Qed.

Lemma roleLookups_app xs ys : roleLookups (xs ++ ys) = roleLookups xs ++ roleLookups ys.
Proof. apply filter_app. Qed.

Lemma permissionListings_app xs ys :
  permissionListings (xs ++ ys) = permissionListings xs ++ permissionListings ys.
Proof. apply filter_app. Qed.

(** The second half of a fetch makes no service call and never clears
    [hasFetched]. *)
Lemma resume_calls o :
  roleLookups (fetchPermissions_resume o) = []
  /\ permissionListings (fetchPermissions_resume o) = [].
Proof.
  destruct o as [[rd [re|]] [pd [pe|]] | e]; split; reflexivity.
Qed.

Lemma resume_keeps_fetched s o :
  hasFetched s = true -> hasFetched (applyAll s (fetchPermissions_resume o)) = true.
Proof.
  intros H. destruct o as [[rd [re|]] [pd [pe|]] | e]; simpl; try reflexivity; exact H.
Qed.

(** A render for the identity that was already fetched runs at most the
    fetch effect, whose call returns at once: nothing happens. *)
Lemma commit_when_fetched a p r uid :
  last p = Some r ->
  optional_id (user (seen r)) = Some uid ->
  optional_id (user a) = Some uid ->
  hasFetched (state p) = true ->
  commit a p = (mkProvider (state p) (Some (mkRendered a (mkFetchEnv (user a) true))), []).
Proof.
  intros Hl Hr Ha Hf. rewrite commit_unfold. cbv zeta. rewrite Hl, Hf.
  assert (E1 : effect_fetch a (mkFetchEnv (user a) true) = []).
  { unfold effect_fetch. destruct (authLoading a); [reflexivity|].
    destruct (user a); [reflexivity | discriminate]. }
  assert (E2 : reset_deps_changed a (Some r) = false).
  { unfold reset_deps_changed. rewrite Hr, Ha. simpl. rewrite String.eqb_refl. reflexivity. }
  rewrite E1, E2. destruct (fetch_deps_changed _ _ _); reflexivity.
Qed.

Lemma rerender_when_fetched n a p r uid :
  last p = Some r ->
  optional_id (user (seen r)) = Some uid ->
  optional_id (user a) = Some uid ->
  hasFetched (state p) = true ->
  rerender (S n) a p
  = (mkProvider (state p) (Some (mkRendered a (mkFetchEnv (user a) true))), []).
Proof.
  revert p r. induction n as [|n IH]; intros p r Hl Hr Ha Hf.
  - simpl. rewrite (commit_when_fetched a p r uid) by assumption. reflexivity.
  - change (rerender (S (S n)) a p)
      with (let '(p1, acts1) := commit a p in
            let '(p2, acts2) := rerender (S n) a p1 in (p2, acts1 ++ acts2)).
    rewrite (commit_when_fetched a p r uid) by assumption.
    rewrite (IH _ (mkRendered a (mkFetchEnv (user a) true))); auto.
Qed.

Lemma step_when_fetched uid p e :
  FetchedFor uid p -> keepsIdentity uid e = true ->
  FetchedFor uid (fst (step p e))
  /\ roleLookups (snd (step p e)) = []
  /\ permissionListings (snd (step p e)) = [].
Proof.
  intros (r & Hl & Hr & Hf) He. destruct e as [a | o |]; simpl in He.
  - apply same_id_eq in He. unfold step.
    rewrite (rerender_when_fetched 1 a p r uid) by assumption. simpl.
    split; [|split; reflexivity].
    exists (mkRendered a (mkFetchEnv (user a) true)). auto.
  - unfold step. rewrite Hl.
    rewrite (rerender_when_fetched 1 (seen r) _ r uid);
      [| reflexivity | exact Hr | exact Hr | apply resume_keeps_fetched; exact Hf ].
    cbn [fst snd state]. rewrite app_nil_r.
    split; [| apply resume_calls].
    eexists. split; [reflexivity|]. split; [exact Hr|].
    apply resume_keeps_fetched; exact Hf.
  - discriminate.
Qed.

Lemma run_when_fetched uid es : forall p,
  FetchedFor uid p -> forallb (keepsIdentity uid) es = true ->
  FetchedFor uid (fst (run p es))
  /\ roleLookups (snd (run p es)) = []
  /\ permissionListings (snd (run p es)) = [].
Proof.
  induction es as [|e es IH]; intros p Hp Hes.
  - simpl. auto.
  - simpl in Hes. apply andb_true_iff in Hes. destruct Hes as [He Hes].
    destruct (step_when_fetched uid p e Hp He) as (Hp1 & R1 & L1).
    simpl. destruct (step p e) as [p1 acts1]. simpl in *.
    specialize (IH p1 Hp1 Hes). destruct (run p1 es) as [p2 acts2]. simpl in *.
    destruct IH as (Hp2 & R2 & L2).
    rewrite roleLookups_app, permissionListings_app, R1, R2, L1, L2. auto.
Qed.

(** Rendering again with the same hook inputs: the callback is new exactly
    when [hasFetched] moved since the previous render, and only then does
    the fetch effect run; the reset effect does not. *)
Lemma commit_same_inputs a s h :
  commit a (mkProvider s (Some (mkRendered a (mkFetchEnv (user a) h)))) =
  let f := mkFetchEnv (user a) (hasFetched s) in
  let acts := if Bool.eqb h (hasFetched s) then [] else effect_fetch a f in
  (mkProvider (applyAll s acts) (Some (mkRendered a f)), acts).
Proof.
  rewrite commit_unfold. cbv zeta.
  unfold fetch_deps_changed, reset_deps_changed, useCallback_fetchPermissions.
  cbn [last seen state fetchPermissions env_user env_hasFetched].
  rewrite (proj2 (same_user_eq _ _) eq_refl), (proj2 (same_id_eq _ _) eq_refl).
  rewrite Bool.eqb_reflx. cbn [negb orb andb].
  destruct (Bool.eqb h (hasFetched s)); cbn [snd negb]; rewrite app_nil_r; reflexivity.
Qed.

(** Effects never set [hasFetched]: after a commit it is what it was, or
    it is false. *)
Lemma commit_hasFetched a p :
  hasFetched (state (fst (commit a p))) = hasFetched (state p)
  \/ hasFetched (state (fst (commit a p))) = false.
Proof.
  rewrite commit_unfold. cbv zeta. cbn [fst state].
  destruct (reset_deps_changed a (last p)).
  - right. rewrite <- applyAll_app. reflexivity.
  - rewrite app_nil_r.
    destruct (fetch_deps_changed _ _ _); [|left; reflexivity].
    unfold effect_fetch. destruct (authLoading a); [left; reflexivity|].
    destruct (user a) as [u|]; [|right; reflexivity].
    cbn [fetchPermissions_call env_user env_hasFetched].
    destruct (hasFetched (state p)) eqn:E; left; cbn; exact E.
Qed.

(** Two renders reach a fixed point: a third one runs no effect and
    changes nothing, so [rerender 2] is "render until nothing changes". *)
Lemma rerender_settles a p :
  commit a (fst (rerender 2 a p)) = (fst (rerender 2 a p), []).
Proof.
  cbn [rerender].
  pose proof (commit_hasFetched a p) as H1.
  rewrite (commit_unfold a p) in *. cbv zeta in *. cbn [fst state] in H1.
  set (acts1 := _ ++ _) in *. set (s1 := applyAll (state p) acts1) in *.
  cbv iota beta. rewrite commit_same_inputs. cbv zeta iota beta. cbn [fst].
  destruct (Bool.eqb (hasFetched (state p)) (hasFetched s1)) eqn:E.
  - cbn [applyAll fold_left]. rewrite commit_same_inputs. cbv zeta.
    rewrite Bool.eqb_reflx. reflexivity.
  - assert (Hs1 : hasFetched s1 = false).
    { destruct H1 as [H1|H1]; [|exact H1].
      rewrite H1, Bool.eqb_reflx in E. discriminate. }
    rewrite commit_same_inputs. cbv zeta.
    assert (K : hasFetched (applyAll s1 (effect_fetch a (mkFetchEnv (user a) (hasFetched s1))))
                = hasFetched s1).
    { rewrite Hs1. unfold effect_fetch. destruct (authLoading a); [exact Hs1|].
      destruct (user a); [exact Hs1 | reflexivity]. }
    rewrite K, Bool.eqb_reflx. reflexivity.
Qed.

End ResolverFacts.

(** ** Fetching *)

Section FetchFacts.
Import Resolver Sample.

(** C3, as the claim has it, fails in its last part: the early return
    does not bound the fetches of an identity by one.  It only guards
    renders whose [hasFetched] is already true.  From a fresh mount, alice
    signs in and, before any response has come back, a render brings
    another user object with the same id: with no refresh anywhere, the
    fetch effect runs again with [hasFetched] still false, and two role
    lookups and two permission listings are issued for the one identity. *)
Lemma same_identity_fetched_twice_without_refresh :
  let es := [AuthChange (signedIn alice); AuthChange (signedIn (mkUser 7 "u-alice"))] in
  forallb (keepsIdentity "u-alice") es = true
  /\ roleLookups (snd (run mount es))
     = [rpc_get_user_role "u-alice"; rpc_get_user_role "u-alice"]
  /\ permissionListings (snd (run mount es))
     = [select_page_permissions; select_page_permissions]
  /\ ~ (length (roleLookups (snd (run mount es))) <= 1).
Proof.
  cbv zeta. split; [reflexivity|]. split; [reflexivity|]. split; [reflexivity|].
  vm_compute. intros H. apply Nat.leb_le in H. discriminate.
Qed.

(** C3, amended.  With a user present and [hasFetched] true in its
    closure, a call of [fetchPermissions] returns at once: no role lookup,
    no permission listing, no state cell touched.  That is the call the
    fetch effect makes in every render whose state has [hasFetched] true.
    Hence, once [hasFetched] is true for an identity, renders for that
    identity and settlements of earlier requests make no further service
    call and leave [hasFetched] true, as long as nobody calls
    [refreshPermissions]. *)
Theorem fetchPermissions_skips_when_fetched (u : User) :
  fetchPermissions_call (mkFetchEnv (Some u) true) = ([], Resolved)
  /\ (forall s, applyAll s (fst (fetchPermissions_call (mkFetchEnv (Some u) true))) = s)
  /\ (forall a p, user a = Some u -> hasFetched (state p) = true ->
        effect_fetch a (fst (useCallback_fetchPermissions a p)) = [])
  /\ (forall p es,
        FetchedFor (user_id u) p ->
        forallb (keepsIdentity (user_id u)) es = true ->
        roleLookups (snd (run p es)) = []
        /\ permissionListings (snd (run p es)) = []
        /\ hasFetched (state (fst (run p es))) = true).
Proof.
  split; [reflexivity|]. split; [reflexivity|]. split.
  - intros a p Ha Hf. rewrite useCallback_env, Ha, Hf.
    unfold effect_fetch. destruct (authLoading a); [reflexivity|].
    rewrite Ha. reflexivity.
  - intros p es Hp Hes.
    destruct (run_when_fetched (user_id u) es p Hp Hes) as ((r & _ & _ & Hf) & R & L).
    auto.
Qed.

Lemma fetchPermissions_skips_when_fetched_witness :
  let es := [AuthChange (signedIn (mkUser 7 "u-alice"));
             ServicesSettle adminReply;
             AuthChange (signedIn alice)] in
  effect_fetch (signedIn alice)
    (fst (useCallback_fetchPermissions (signedIn alice) aliceFetched)) = []
  /\ roleLookups (snd (run aliceFetched es)) = []
  /\ permissionListings (snd (run aliceFetched es)) = []
  /\ hasFetched (state (fst (run aliceFetched es))) = true.
Proof.
  intros es.
  destruct (fetchPermissions_skips_when_fetched alice) as (_ & _ & E & R).
  split.
  - apply E; reflexivity.
  - apply R; [| reflexivity].
    eexists. split; [reflexivity|]. split; reflexivity.
Defined.

(** C4, as the claim has it, fails: when the awaited calls reject, the
    [catch] block does not touch [hasFetched], which therefore is still
    false after the attempt. *)
Lemma rejected_fetch_leaves_hasFetched_false :
  hasFetched (fetchAttempt initialState alice (Rejected "TypeError: Failed to fetch"))
  <> true.
Proof. vm_compute. discriminate. Qed.

(** C4, amended.  After a fetch attempt for a user, [loading] is false
    whatever the outcome.  If both calls resolved, with or without an
    [error] in their results, [hasFetched] is true.  If the awaited calls
    rejected, role and permissions are 'user' and the empty list and
    [hasFetched] is what it was before the attempt. *)
Theorem fetchAttempt_outcome (s : PState) (u : User) (o : Settlement) :
  loading (fetchAttempt s u o) = false
  /\ (forall roleResult permissionsResult,
        o = Fulfilled roleResult permissionsResult ->
        hasFetched (fetchAttempt s u o) = true)
  /\ (forall e, o = Rejected e ->
        userRole (fetchAttempt s u o) = "user"
        /\ permissions (fetchAttempt s u o) = []
        /\ hasFetched (fetchAttempt s u o) = hasFetched s).
Proof.
  split; [|split].
  - destruct o as [[rd [re|]] [pd [pe|]] | e]; reflexivity.
  - intros rr pr ->. destruct rr as [rd [re|]], pr as [pd [pe|]]; reflexivity.
  - intros e ->. repeat split.
Qed.

Lemma fetchAttempt_outcome_witness :
  hasFetched (fetchAttempt initialState alice adminReply) = true
  /\ (userRole (fetchAttempt (state aliceFetched) bob (Rejected "timeout")) = "user"
      /\ permissions (fetchAttempt (state aliceFetched) bob (Rejected "timeout")) = []
      /\ hasFetched (fetchAttempt (state aliceFetched) bob (Rejected "timeout"))
         = hasFetched (state aliceFetched)).
Proof.
  split.
  - exact (proj1 (proj2 (fetchAttempt_outcome initialState alice adminReply))
             _ _ eq_refl).
  - exact (proj2 (proj2 (fetchAttempt_outcome (state aliceFetched) bob (Rejected "timeout")))
             _ eq_refl).
Defined.

(** C6. When both calls resolve, the role that is stored depends on the
    role result alone and the permissions that are stored on the listing
    result alone.  An [error] in the role result gives 'user', and so does
    an absent or empty role; otherwise the returned role is adopted.  An
    [error] in the listing result gives the empty list, and so does absent
    data; otherwise the returned list is adopted. *)
Theorem fetch_results_independent
    (s : PState) (u : User)
    (roleResult : Response string) (permissionsResult : Response (list PagePermission)) :
  let s' := fetchAttempt s u (Fulfilled roleResult permissionsResult) in
  (error roleResult <> None -> userRole s' = "user")
  /\ (error roleResult = None ->
        (data roleResult = None \/ data roleResult = Some "") -> userRole s' = "user")
  /\ (forall r, error roleResult = None ->
        data roleResult = Some r -> r <> "" -> userRole s' = r)
  /\ (error permissionsResult <> None -> permissions s' = [])
  /\ (error permissionsResult = None -> data permissionsResult = None ->
        permissions s' = [])
  /\ (forall ps, error permissionsResult = None ->
        data permissionsResult = Some ps -> permissions s' = ps)
  /\ (forall other,
        userRole (fetchAttempt s u (Fulfilled roleResult other)) = userRole s')
  /\ (forall other,
        permissions (fetchAttempt s u (Fulfilled other permissionsResult))
        = permissions s').
Proof.
  destruct roleResult as [rd [re|]], permissionsResult as [pd [pe|]];
    cbn; repeat split; intros;
    repeat match goal with
           | H : ?x <> ?x |- _ => contradiction
           | H : Some _ = None |- _ => discriminate
           | H : _ \/ _ |- _ => destruct H
           | H : rd = _ |- _ => rewrite H
           | H : pd = _ |- _ => rewrite H
           | |- context [error ?o] => destruct o as [? [?|]]; cbn
           end;
    try reflexivity.
  all: try (destruct r; [contradiction | reflexivity]).
Qed.

Lemma fetch_results_independent_witness :
  let failedRole := mkResponse (@None string) (Some "permission denied for function") in
  let listing := mkResponse (Some [leadsRecord]) None in
  let s' := fetchAttempt initialState alice (Fulfilled failedRole listing) in
  userRole s' = "user"
  /\ permissions s' = [leadsRecord]
  /\ userRole (fetchAttempt initialState alice
                 (Fulfilled (mkResponse (Some "manager") None)
                            (mkResponse None (Some "relation does not exist"))))
     = "manager".
Proof.
  intros failedRole listing s'.
  pose proof (fetch_results_independent initialState alice failedRole listing) as T.
  pose proof (fetch_results_independent initialState alice
                (mkResponse (Some "manager") None)
                (mkResponse None (Some "relation does not exist"))) as T'.
  cbv zeta in T, T'.
  split; [| split].
  - apply (proj1 T). discriminate.
  - apply (proj1 (proj2 (proj2 (proj2 (proj2 (proj2 T)))))); reflexivity.
  - apply (proj1 (proj2 (proj2 T'))); [reflexivity | reflexivity | discriminate].
Defined.

End FetchFacts.

(** ** Identity changes and refresh *)

Section IdentityFacts.
Import Resolver Sample.

(** C5, as the claim has it, fails: in the commit that first sees bob
    after alice was fetched, the fetch effect runs before the reset effect;
    the [fetchPermissions] it calls closes over bob and over the
    [hasFetched = true] left by alice, and returns at its second early
    return.  The only action of that commit is the reset that comes
    after. *)
Lemma identity_change_first_call_sees_stale_flag :
  let f := fst (useCallback_fetchPermissions (signedIn bob) aliceFetched) in
  env_user f = Some bob
  /\ env_hasFetched f = true
  /\ ~ (env_hasFetched f = false)
  /\ effect_fetch (signedIn bob) f = []
  /\ snd (commit (signedIn bob) aliceFetched) = [setHasFetched false].
Proof. vm_compute. repeat split. discriminate. Qed.

(** C5, amended.  When a render brings a signed-in user whose id differs
    from the previous render's, auth not loading:
    - if [hasFetched] was true, the first commit only resets it (the fetch
      effect ran first and its call returned early), and the render that
      follows starts the fetch;
    - if [hasFetched] was false, the first commit starts the fetch and
      then resets [hasFetched], and the render that follows does nothing.
    Either way exactly one role lookup, for the new id, and one permission
    listing are issued, [loading] is set only while [hasFetched] is false,
    and afterwards [loading] is true and [hasFetched] is false. *)
Theorem identity_change_fetches_once (p : Provider) (r : Rendered) (v : User) :
  last p = Some r ->
  optional_id (user (seen r)) <> Some (user_id v) ->
  let a := mkAuth (Some v) false in
  let fetch := [setLoading true; rpc_get_user_role (user_id v); select_page_permissions] in
  (hasFetched (state p) = true ->
     snd (commit a p) = [setHasFetched false]
     /\ snd (commit a (fst (commit a p))) = fetch)
  /\ (hasFetched (state p) = false ->
        snd (commit a p) = fetch ++ [setHasFetched false]
        /\ snd (commit a (fst (commit a p))) = [])
  /\ roleLookups (snd (step p (AuthChange a))) = [rpc_get_user_role (user_id v)]
  /\ permissionListings (snd (step p (AuthChange a))) = [select_page_permissions]
  /\ loading (state (fst (step p (AuthChange a)))) = true
  /\ hasFetched (state (fst (step p (AuthChange a)))) = false.
Proof.
  intros Hl Hid a fetch.
  assert (Hu : same_user (user (seen r)) (Some v) = false).
  { destruct (same_user (user (seen r)) (Some v)) eqn:E; [|reflexivity].
    apply same_user_eq in E. rewrite E in Hid. contradiction. }
  assert (Hi : same_id (optional_id (user (seen r))) (Some (user_id v)) = false).
  { destruct (same_id _ _) eqn:E; [|reflexivity].
    apply same_id_eq in E. contradiction. }
  assert (C1 : commit a p =
               let acts := effect_fetch a (mkFetchEnv (Some v) (hasFetched (state p)))
                           ++ [setHasFetched false] in
               (mkProvider (applyAll (state p) acts)
                  (Some (mkRendered a (mkFetchEnv (Some v) (hasFetched (state p))))), acts)).
  { rewrite commit_unfold. cbv zeta. rewrite Hl.
    unfold fetch_deps_changed, reset_deps_changed. cbn [user a optional_id].
    rewrite Hu, Hi. reflexivity. }
  cbv zeta in C1.
  unfold step. cbn [rerender]. rewrite C1.
  change (Some v) with (user a) at 2 4 6 8 10 12. rewrite !commit_same_inputs.
  cbv zeta.
  destruct (hasFetched (state p)) eqn:Hf; cbn;
    repeat split; try reflexivity; try discriminate.
  all: change (mkFetchEnv (Some v)) with (mkFetchEnv (user a));
    rewrite commit_same_inputs; reflexivity.
Qed.

Lemma identity_change_fetches_once_witness :
  snd (commit (signedIn bob) aliceFetched) = [setHasFetched false]
  /\ snd (commit (signedIn bob) (fst (commit (signedIn bob) aliceFetched)))
     = [setLoading true; rpc_get_user_role "u-bob"; select_page_permissions]
  /\ roleLookups (snd (step aliceFetched (AuthChange (signedIn bob))))
     = [rpc_get_user_role "u-bob"].
Proof.
  assert (L : last aliceFetched
              = Some (mkRendered (signedIn alice) (mkFetchEnv (Some alice) true)))
    by reflexivity.
  assert (D : optional_id (user (seen (mkRendered (signedIn alice)
                                          (mkFetchEnv (Some alice) true))))
              <> Some (user_id bob)) by discriminate.
  pose proof (identity_change_fetches_once aliceFetched _ bob L D) as T.
  cbv zeta in T. destruct T as (T1 & _ & T3 & _).
  destruct (T1 eq_refl) as [A B].
  split; [exact A | split; [exact B | exact T3]].
Defined.

(** C7, what the code does.  In a render whose [hasFetched] is true,
    [refreshPermissions] closes over a [fetchPermissions] that closed over
    that [true]: the call queues [setHasFetched(false)], its inner
    [fetchPermissions()] returns at the early return, and the promise is
    resolved with no service call made.  With [hasFetched] false in the
    closure the same call does start the fetch and waits for it.  For the
    provider that has fetched for alice, the one fetch that follows a
    refresh is started by the fetch effect of the next render. *)
Theorem refreshPermissions_after_fetch_returns_early (u : User) :
  refreshPermissions_call (mkFetchEnv (Some u) true) = ([setHasFetched false], Resolved)
  /\ (forall a role perms ld,
        Context.refreshPermissions
          (Context.value a (mkPState role perms ld true) (mkFetchEnv (Some u) true))
        = ([setHasFetched false], Resolved))
  /\ refreshPermissions_call (mkFetchEnv (Some u) false)
     = ([setHasFetched false; setLoading true;
         rpc_get_user_role (user_id u); select_page_permissions],
        AwaitingServices)
  /\ option_map fetchPermissions (last aliceFetched)
     = Some (mkFetchEnv (Some alice) true)
  /\ snd (step aliceFetched Refresh)
     = [setHasFetched false]
       ++ [setLoading true; rpc_get_user_role "u-alice"; select_page_permissions].
Proof.
  repeat split.
Qed.

(** C8, as the claim has it, fails: when the identity becomes null in a
    render in which auth is loading, the fetch effect returns at its first
    line; only the reset effect runs, and role and permissions stay those
    of the previous user. *)
Lemma identity_null_while_auth_loading_keeps_role :
  state (fst (step aliceFetched (AuthChange (mkAuth None true))))
  = mkPState "admin" [leadsRecord; settingsRecord] false false
  /\ state (fst (step aliceFetched (AuthChange (mkAuth None true))))
     <> mkPState "user" [] false false.
Proof. split; [reflexivity | vm_compute; discriminate]. Qed.

(** C8, amended.  When a render in which auth is not loading brings a null
    identity after one with a user, the state afterwards is role 'user',
    no permissions, [loading] false, [hasFetched] false, and no role
    lookup or permission listing is issued.  A call of [fetchPermissions]
    whose closure holds a null user does the same reset and makes no
    service call either. *)
Theorem identity_null_resets (p : Provider) (r : Rendered) (u : User) (a : Auth) :
  last p = Some r ->
  user (seen r) = Some u ->
  user a = None ->
  authLoading a = false ->
  state (fst (step p (AuthChange a))) = mkPState "user" [] false false
  /\ roleLookups (snd (step p (AuthChange a))) = []
  /\ permissionListings (snd (step p (AuthChange a))) = []
  /\ (forall h s,
        snd (fetchPermissions_call (mkFetchEnv None h)) = Resolved
        /\ applyAll s (fst (fetchPermissions_call (mkFetchEnv None h)))
           = mkPState "user" [] false false
        /\ roleLookups (fst (fetchPermissions_call (mkFetchEnv None h))) = []
        /\ permissionListings (fst (fetchPermissions_call (mkFetchEnv None h))) = []).
Proof.
  intros Hl Hr Ha Hal.
  assert (C1 : commit a p =
               let acts := effect_fetch a (mkFetchEnv (user a) (hasFetched (state p)))
                           ++ [setHasFetched false] in
               (mkProvider (applyAll (state p) acts)
                  (Some (mkRendered a (mkFetchEnv (user a) (hasFetched (state p))))), acts)).
  { rewrite commit_unfold. cbv zeta. rewrite Hl.
    unfold fetch_deps_changed, reset_deps_changed. rewrite Hr, Ha. reflexivity. }
  cbv zeta in C1.
  unfold step. cbn [rerender]. rewrite C1, commit_same_inputs. cbv zeta.
  unfold effect_fetch. rewrite Ha, Hal.
  destruct (hasFetched (state p)); cbn; repeat split; reflexivity.
Qed.

Lemma identity_null_resets_witness :
  state (fst (step aliceFetched (AuthChange signedOut))) = mkPState "user" [] false false
  /\ roleLookups (snd (step aliceFetched (AuthChange signedOut))) = []
  /\ permissionListings (snd (step aliceFetched (AuthChange signedOut))) = [].
Proof.
  pose proof (identity_null_resets aliceFetched
                (mkRendered (signedIn alice) (mkFetchEnv (Some alice) true))
                alice signedOut eq_refl eq_refl eq_refl eq_refl) as T.
  destruct T as (A & B & C & _).
  split; [exact A | split; [exact B | exact C]].
Defined.

End IdentityFacts.

(** ** The context hook *)

Section ContextFacts.
Import Context Sample.

Lemma useContext_without_provider above :
  (forall x, In x above -> isProvider x = false) -> useContext above = None.
Proof.
  induction above as [|x above IH]; intros H; [reflexivity|].
  destruct x as [a s f | name].
  - specialize (H _ (or_introl eq_refl)). discriminate.
  - simpl. apply IH. intros y Hy. apply H. right; exact Hy.
Qed.

Lemma useContext_nearest_provider inner a s f outer :
  (forall x, In x inner -> isProvider x = false) ->
  useContext (inner ++ PermissionsProvider a s f :: outer) = Some (value a s f).
Proof.
  induction inner as [|x inner IH]; intros H; [reflexivity|].
  destruct x as [a' s' f' | name].
  - specialize (H _ (or_introl eq_refl)). discriminate.
  - simpl. apply IH. intros y Hy. apply H. right; exact Hy.
Qed.

Lemma provider_split above :
  (exists x, In x above /\ isProvider x = true) ->
  exists inner a s f outer,
    above = inner ++ PermissionsProvider a s f :: outer
    /\ (forall x, In x inner -> isProvider x = false).
Proof.
  induction above as [|y above IH]; intros (x & Hx & Hp); [destruct Hx|].
  destruct y as [a s f | name].
  - exists [], a, s, f, above. split; [reflexivity | intros z []].
  - destruct Hx as [<-|Hx]; [discriminate|].
    destruct (IH (ex_intro _ x (conj Hx Hp))) as (inner & a & s & f & outer & E & Hn).
    exists (OtherComponent name :: inner), a, s, f, outer. split.
    + rewrite E. reflexivity.
    + intros z [<-|Hz]; [reflexivity | apply Hn; exact Hz].
Qed.

(** C10. With no [PermissionsProvider] among the components above the
    caller, [usePermissions] throws the error 'usePermissions must be used
    within PermissionsProvider'.  With one above it, it returns the value
    of the nearest one and does not throw. *)
Theorem usePermissions_requires_provider (above : list Ancestor) :
  ((forall x, In x above -> isProvider x = false) ->
     usePermissions above = inl "usePermissions must be used within PermissionsProvider")
  /\ (forall inner a s f outer,
        above = inner ++ PermissionsProvider a s f :: outer ->
        (forall x, In x inner -> isProvider x = false) ->
        usePermissions above = inr (value a s f))
  /\ ((exists x, In x above /\ isProvider x = true) ->
        exists context, usePermissions above = inr context).
Proof.
  unfold usePermissions. split; [|split].
  - intros H. rewrite (useContext_without_provider _ H). reflexivity.
  - intros inner a s f outer -> H.
    rewrite (useContext_nearest_provider _ _ _ _ _ H). reflexivity.
  - intros H.
    destruct (provider_split _ H) as (inner & a & s & f & outer & -> & Hn).
    rewrite (useContext_nearest_provider _ _ _ _ _ Hn). eexists. reflexivity.
Qed.

Lemma usePermissions_requires_provider_witness :
  usePermissions [OtherComponent "Toaster"; OtherComponent "TooltipProvider"]
  = inl "usePermissions must be used within PermissionsProvider"
  /\ usePermissions
       [OtherComponent "PageAccessGuard";
        PermissionsProvider (signedIn alice) Resolver.initialState
          (Resolver.mkFetchEnv (Some alice) false);
        OtherComponent "App"]
     = inr (value (signedIn alice) Resolver.initialState
              (Resolver.mkFetchEnv (Some alice) false)).
Proof.
  split.
  - apply (proj1 (usePermissions_requires_provider _)).
    intros x [<-|[<-|[]]]; reflexivity.
  - apply (proj1 (proj2 (usePermissions_requires_provider _))
             [OtherComponent "PageAccessGuard"] _ _ _ [OtherComponent "App"]).
    + reflexivity.
    + intros x [<-|[]]; reflexivity.
Defined.

End ContextFacts.

(** ** The route guards *)

Section GuardFacts.
Import Guards Sample.

(** C2. Once auth has stopped loading and there is no user,
    [ProtectedRoute] returns a replace-navigation to "/auth" whatever it
    wraps: the element mounts no page, and the navigation state it stands
    for is [LoginRedirect], never [ContentReady], whatever the access
    guard would decide and whether or not the page module has loaded.
    This holds for the element of every route of the table that is
    wrapped in [ProtectedRoute], "/settings" among them. *)
Theorem ProtectedRoute_redirects_unauthenticated (a : Auth) :
  authLoading a = false ->
  user a = None ->
  (forall children,
     ProtectedRoute a children = Navigate "/auth" true
     /\ pagesIn (ProtectedRoute a children) = []
     /\ (forall v moduleLoaded,
           navState v moduleLoaded (ProtectedRoute a children) = Some LoginRedirect
           /\ navState v moduleLoaded (ProtectedRoute a children) <> Some ContentReady))
  /\ (forall pattern page,
        In (pattern, page) protectedPages ->
        routeElement a pattern = Some (ProtectedRoute a (Lazy page))
        /\ routeElement a pattern = Some (Navigate "/auth" true))
  /\ routeElement a "/settings" = Some (Navigate "/auth" true).
Proof.
  intros Hl Hu.
  assert (P : forall children, ProtectedRoute a children = Navigate "/auth" true).
  { intros children. unfold ProtectedRoute. rewrite Hl, Hu. reflexivity. }
  split; [|split].
  - intros children. rewrite P. repeat split. discriminate.
  - intros pattern page Hin.
    assert (E : routeElement a pattern = Some (ProtectedRoute a (Lazy page))).
    { unfold protectedPages in Hin. simpl in Hin.
      repeat (destruct Hin as [Hin|Hin];
              [injection Hin as <- <-; reflexivity|]).
      destruct Hin. }
    split; [exact E | rewrite E, P; reflexivity].
  - change (routeElement a "/settings") with (Some (ProtectedRoute a (Lazy Settings))).
    rewrite P. reflexivity.
Qed.

Lemma ProtectedRoute_redirects_unauthenticated_witness :
  ProtectedRoute signedOut (Lazy Settings) = Navigate "/auth" true
  /\ routeElement signedOut "/settings" = Some (Navigate "/auth" true)
  /\ navState Allowed true (ProtectedRoute signedOut (Lazy Settings)) = Some LoginRedirect.
Proof.
  destruct (ProtectedRoute_redirects_unauthenticated signedOut eq_refl eq_refl)
    as (A & _ & C).
  destruct (A (Lazy Settings)) as (A1 & _ & A3).
  split; [exact A1 | split; [exact C | exact (proj1 (A3 Allowed true))]].
Defined.

End GuardFacts.

(** ** More on the access decision *)

Section NormalizationFacts.
Import Access Sample.

Lemma ends_with_slash_app s : ends_with_slash (s ++ "/")%string = true.
Proof.
  induction s as [|c s IH]; [reflexivity|].
  cbn [append ends_with_slash].
  destruct (s ++ "/")%string eqn:E; [destruct s; discriminate | exact IH].
Qed.

Lemma ends_with_slash_inv s :
  ends_with_slash s = true -> exists t, s = (t ++ "/")%string.
Proof.
  induction s as [|c s IH]; [discriminate|].
  destruct s as [|d s'].
  - cbn. intros H. apply Ascii.eqb_eq in H. subst c. exists "". reflexivity.
  - intros H. destruct (IH H) as [t Ht]. exists (String c t).
    cbn [append]. rewrite <- Ht. reflexivity.
Qed.

Lemma replace_trailing_slash_fixed s :
  ends_with_slash s = false -> replace_trailing_slash s = s.
Proof.
  induction s as [|c s IH]; [reflexivity|].
  destruct s as [|d s'].
  - cbn. intros ->. reflexivity.
  - intros H. change (replace_trailing_slash (String c (String d s')))
      with (String c (replace_trailing_slash (String d s'))).
    rewrite IH; [reflexivity | exact H].
Qed.

Lemma normalizedRoute_fixed r :
  ends_with_slash r = false -> normalizedRoute r = r.
Proof.
  intros H. unfold normalizedRoute.
  destruct (String.eqb_spec r "/") as [->|_]; [discriminate|].
  apply replace_trailing_slash_fixed; exact H.
Qed.

Lemma append_assoc_slash t : ((t ++ "/") ++ "/")%string = (t ++ "//")%string.
Proof. induction t as [|c t IH]; [reflexivity|]. cbn [append]. rewrite IH. reflexivity. Qed.

(** A route that does not end in two slashes has a normal form without
    trailing slash. *)
Lemma normalizedRoute_no_slash r :
  (forall t, r <> (t ++ "//")%string) -> ends_with_slash (normalizedRoute r) = false.
Proof.
  intros H. destruct (ends_with_slash r) eqn:E.
  - destruct (ends_with_slash_inv _ E) as [t ->].
    unfold normalizedRoute.
    destruct (String.eqb_spec (t ++ "/")%string "/") as [_|_]; [reflexivity|].
    rewrite replace_trailing_slash_app.
    destruct (ends_with_slash t) eqn:Et; [|reflexivity].
    destruct (ends_with_slash_inv _ Et) as [t' ->].
    exfalso. apply (H t'). apply append_assoc_slash.
  - rewrite normalizedRoute_fixed; assumption.
Qed.

Lemma find_filter_implied {A} (f g : A -> bool) l :
  (forall x, f x = true -> g x = true) -> find f (filter g l) = find f l.
Proof.
  intros H. induction l as [|x l IH]; [reflexivity|].
  simpl. destruct (g x) eqn:G; simpl.
  - destruct (f x); [reflexivity | exact IH].
  - destruct (f x) eqn:F; [rewrite (H _ F) in G; discriminate | exact IH].
Qed.

Lemma find_app_l {A} (f : A -> bool) l l' x :
  find f l = Some x -> find f (l ++ l') = Some x.
Proof.
  induction l as [|y l IH]; [discriminate|].
  simpl. destruct (f y); [auto | exact IH].
Qed.

Lemma find_app_r {A} (f : A -> bool) l l' :
  find f l = None -> find f (l ++ l') = find f l'.
Proof.
  induction l as [|y l IH]; [reflexivity|].
  simpl. destruct (f y); [discriminate | exact IH].
Qed.

(** X1. A single trailing slash never changes the decision: for a
    non-empty route without trailing slash, the route and the route
    followed by "/" normalize to the same string and get the same
    answer. *)
Theorem hasPageAccess_trailing_slash permissions userRole r :
  r <> "" ->
  ends_with_slash r = false ->
  normalizedRoute r = r
  /\ normalizedRoute (r ++ "/")%string = r
  /\ hasPageAccess permissions userRole (r ++ "/")%string
     = hasPageAccess permissions userRole r.
Proof.
  intros Hr He.
  assert (A : normalizedRoute r = r) by (apply normalizedRoute_fixed; exact He).
  assert (B : normalizedRoute (r ++ "/")%string = r)
    by (apply normalizedRoute_slash; exact Hr).
  split; [exact A | split; [exact B|]].
  unfold hasPageAccess. rewrite A, B. reflexivity.
Qed.

Lemma hasPageAccess_trailing_slash_witness :
  hasPageAccess [leadsRecord; settingsRecord] "manager" "/settings/"
  = hasPageAccess [leadsRecord; settingsRecord] "manager" "/settings".
Proof.
  apply (hasPageAccess_trailing_slash [leadsRecord; settingsRecord] "manager" "/settings").
  - discriminate.
  - reflexivity.
Defined.

(** X2. Normalization reaches a normal form in one step on every route
    that does not end in two slashes: the result has no trailing slash and
    normalizing it again changes nothing.  (A route ending in "//" keeps
    one slash, and "//" itself becomes "/".) *)
Theorem normalizedRoute_normal_form r :
  (forall t, r <> (t ++ "//")%string) ->
  ends_with_slash (normalizedRoute r) = false
  /\ normalizedRoute (normalizedRoute r) = normalizedRoute r.
Proof.
  intros H. pose proof (normalizedRoute_no_slash r H) as E.
  split; [exact E | apply normalizedRoute_fixed; exact E].
Qed.

Lemma no_double_slash_settings : forall t, "/settings/" <> (t ++ "//")%string.
Proof.
  intros t E.
  assert (L : ends_with_slash (normalizedRoute (t ++ "//")%string) = true).
  { rewrite <- append_assoc_slash.
    destruct (String.eqb_spec t "") as [->|Ht]; [reflexivity|].
    rewrite normalizedRoute_slash.
    - apply ends_with_slash_app.
    - destruct t; [contradiction | discriminate]. }
  rewrite <- E in L. discriminate.
Qed.

Lemma normalizedRoute_normal_form_witness :
  ends_with_slash (normalizedRoute "/settings/") = false
  /\ normalizedRoute (normalizedRoute "/settings/") = normalizedRoute "/settings/".
Proof.
  exact (normalizedRoute_normal_form "/settings/" no_double_slash_settings).
Defined.

(** X3. Records whose [route] ends in a slash are never consulted: for
    every route that does not end in two slashes, removing all such
    records from the list leaves the answer unchanged.  A page stored as
    "/settings/" is therefore open to every role under "/settings" and
    "/settings/". *)
Theorem hasPageAccess_ignores_slashed_records permissions userRole r :
  (forall t, r <> (t ++ "//")%string) ->
  hasPageAccess permissions userRole r
  = hasPageAccess (filter (fun p => negb (ends_with_slash (route p))) permissions)
      userRole r.
Proof.
  intros H. unfold hasPageAccess. cbv zeta.
  rewrite find_filter_implied; [reflexivity|].
  intros p Hp. apply String.eqb_eq in Hp. rewrite Hp.
  rewrite (normalizedRoute_no_slash r H). reflexivity.
Qed.

Lemma hasPageAccess_ignores_slashed_records_witness :
  hasPageAccess [mkPagePermission "p9" "Settings" "/settings/" false false false]
    "user" "/settings/" = true.
Proof.
  rewrite (hasPageAccess_ignores_slashed_records _ "user" "/settings/"
             no_double_slash_settings).
  reflexivity.
Defined.

(** X4. Earlier records shadow later ones.  If the list already holds a
    record for the route, appending more records changes nothing; if it
    holds none, the answer is the one the appended records give alone. *)
Theorem hasPageAccess_append permissions more userRole r :
  ((exists p, FirstMatch (normalizedRoute r) permissions p) ->
     hasPageAccess (permissions ++ more) userRole r
     = hasPageAccess permissions userRole r)
  /\ (NoMatch (normalizedRoute r) permissions ->
        hasPageAccess (permissions ++ more) userRole r
        = hasPageAccess more userRole r).
Proof.
  split.
  - intros [p Hp]. unfold hasPageAccess. cbv zeta.
    rewrite (find_app_l _ _ _ _ (find_FirstMatch _ _ _ Hp)).
    rewrite (find_FirstMatch _ _ _ Hp). reflexivity.
  - intros Hn. unfold hasPageAccess. cbv zeta.
    rewrite (find_app_r _ _ _ (find_NoMatch _ _ Hn)). reflexivity.
Qed.

Lemma hasPageAccess_append_witness :
  hasPageAccess
    ([settingsRecord] ++ [mkPagePermission "dup" "Settings" "/settings" false true false])
    "manager" "/settings"
  = hasPageAccess [settingsRecord] "manager" "/settings"
  /\ hasPageAccess ([leadsRecord] ++ [settingsRecord]) "manager" "/settings"
     = hasPageAccess [settingsRecord] "manager" "/settings".
Proof.
  split.
  - apply (proj1 (hasPageAccess_append [settingsRecord] _ "manager" "/settings")).
    exists settingsRecord. apply FirstHere. reflexivity.
  - apply (proj2 (hasPageAccess_append [leadsRecord] _ "manager" "/settings")).
    intros p [<-|[]]. discriminate.
Defined.

End NormalizationFacts.

(** ** More on the provider *)

Section ProviderFacts.
Import Resolver Sample.

Lemma rerender2_unfold a p :
  rerender 2 a p =
  let acts1 :=
    (if fetch_deps_changed a (snd (useCallback_fetchPermissions a p)) (last p)
     then effect_fetch a (mkFetchEnv (user a) (hasFetched (state p))) else [])
    ++ (if reset_deps_changed a (last p) then effect_reset else []) in
  let s1 := applyAll (state p) acts1 in
  let acts2 :=
    if Bool.eqb (hasFetched (state p)) (hasFetched s1) then []
    else effect_fetch a (mkFetchEnv (user a) (hasFetched s1)) in
  (mkProvider (applyAll s1 acts2) (Some (mkRendered a (mkFetchEnv (user a) (hasFetched s1)))),
   acts1 ++ acts2).
Proof.
  cbn [rerender]. rewrite commit_unfold. cbv zeta iota beta.
  rewrite commit_same_inputs. cbv zeta iota beta. rewrite app_nil_r. reflexivity.
Qed.

Lemma rerender2_same_inputs a s h :
  rerender 2 a (mkProvider s (Some (mkRendered a (mkFetchEnv (user a) h)))) =
  let acts1 :=
    if Bool.eqb h (hasFetched s) then []
    else effect_fetch a (mkFetchEnv (user a) (hasFetched s)) in
  let s1 := applyAll s acts1 in
  let acts2 :=
    if Bool.eqb (hasFetched s) (hasFetched s1) then []
    else effect_fetch a (mkFetchEnv (user a) (hasFetched s1)) in
  (mkProvider (applyAll s1 acts2) (Some (mkRendered a (mkFetchEnv (user a) (hasFetched s1)))),
   acts1 ++ acts2).
Proof.
  cbn [rerender]. rewrite commit_same_inputs. cbv zeta iota beta.
  rewrite commit_same_inputs. cbv zeta iota beta. rewrite app_nil_r. reflexivity.
Qed.

Lemma Stable_inv p :
  Stable p ->
  exists a, p = mkProvider (state p)
                  (Some (mkRendered a (mkFetchEnv (user a) (hasFetched (state p))))).
Proof.
  intros (r & Hl & Hf). destruct p as [s l], r as [a f]. simpl in *. subst.
  exists a. reflexivity.
Qed.

(** While auth is loading, the fetch effect does nothing. *)
Lemma effect_fetch_loading a f : authLoading a = true -> effect_fetch a f = [].
Proof. intros H. unfold effect_fetch. rewrite H. reflexivity. Qed.

(** X5. While auth is loading the provider leaves the permission store
    alone: whatever the provider and whatever user the render brings, an
    auth change with [loading] true issues no role lookup and no
    permission listing and leaves role, permissions and [loading] as
    they were. *)
Theorem auth_loading_freezes_provider (p : Provider) (a : Auth) :
  authLoading a = true ->
  roleLookups (snd (step p (AuthChange a))) = []
  /\ permissionListings (snd (step p (AuthChange a))) = []
  /\ userRole (state (fst (step p (AuthChange a)))) = userRole (state p)
  /\ permissions (state (fst (step p (AuthChange a)))) = permissions (state p)
  /\ loading (state (fst (step p (AuthChange a)))) = loading (state p).
Proof.
  intros H. unfold step. rewrite rerender2_unfold. cbv zeta.
  rewrite !(effect_fetch_loading a _ H).
  destruct (fetch_deps_changed _ _ _), (reset_deps_changed _ _);
    cbn [app effect_reset applyAll fold_left apply hasFetched];
    destruct (Bool.eqb _ _); repeat split.
Qed.

Lemma auth_loading_freezes_provider_witness :
  userRole (state (fst (step aliceFetched (AuthChange (mkAuth (Some bob) true))))) = "admin"
  /\ roleLookups (snd (step aliceFetched (AuthChange (mkAuth (Some bob) true)))) = [].
Proof.
  destruct (auth_loading_freezes_provider aliceFetched (mkAuth (Some bob) true) eq_refl)
    as (A & _ & B & _).
  split; [exact B | exact A].
Defined.

(** *** Calls come in pairs *)

Lemma paired_app xs ys : paired xs -> paired ys -> paired (xs ++ ys).
Proof.
  unfold paired. intros H1 H2.
  rewrite roleLookups_app, permissionListings_app, !length_app. congruence.
Qed.

Lemma paired_call env : paired (fst (fetchPermissions_call env)).
Proof.
  unfold fetchPermissions_call.
  destruct (env_user env); [destruct (env_hasFetched env)|]; reflexivity.
Qed.

Lemma paired_effect_fetch a f : paired (effect_fetch a f).
Proof.
  unfold effect_fetch. destruct (authLoading a); [reflexivity|].
  destruct (user a); [apply paired_call | reflexivity].
Qed.

Lemma paired_resume o : paired (fetchPermissions_resume o).
Proof. unfold paired. destruct (resume_calls o) as [-> ->]. reflexivity. Qed.

Lemma paired_rerender2 a p : paired (snd (rerender 2 a p)).
Proof.
  rewrite rerender2_unfold. cbv zeta. cbn [snd].
  repeat apply paired_app.
  - destruct (fetch_deps_changed _ _ _); [apply paired_effect_fetch | reflexivity].
  - destruct (reset_deps_changed _ _); reflexivity.
  - destruct (Bool.eqb _ _); [reflexivity | apply paired_effect_fetch].
Qed.

Lemma paired_step p e : paired (snd (step p e)).
Proof.
  destruct e as [a | o |]; unfold step.
  - apply paired_rerender2.
  - destruct (last p) as [r|]; [|apply paired_resume].
    pose proof (paired_rerender2 (seen r)
                  (mkProvider (applyAll (state p) (fetchPermissions_resume o)) (Some r))) as H.
    destruct (rerender 2 _ _) as [p2 acts2]. cbn [snd] in *.
    apply paired_app; [apply paired_resume | exact H].
  - destruct (last p) as [r|]; [|reflexivity].
    pose proof (paired_rerender2 (seen r)
                  (mkProvider (applyAll (state p)
                     (fst (refreshPermissions_call (fetchPermissions r)))) (Some r))) as H.
    destruct (rerender 2 _ _) as [p2 acts2]. cbn [snd] in *.
    apply paired_app; [|exact H].
    unfold refreshPermissions_call.
    pose proof (paired_call (fetchPermissions r)) as K.
    destruct (fetchPermissions_call (fetchPermissions r)) as [acts pr]. exact K.
Qed.

(** X6. The two service calls are only ever issued together: over any
    sequence of auth changes, settlements and refresh calls, from any
    provider, the number of role lookups equals the number of permission
    listings. *)
Theorem service_calls_paired (es : list Event) (p : Provider) :
  length (roleLookups (snd (run p es))) = length (permissionListings (snd (run p es))).
Proof.
  revert p. induction es as [|e es IH]; intros p; [reflexivity|].
  cbn [run]. pose proof (paired_step p e) as H1.
  destruct (step p e) as [p1 acts1]. specialize (IH p1).
  destruct (run p1 es) as [p2 acts2]. cbn [snd] in *.
  apply paired_app; assumption.
Qed.

(** *** The provider at rest *)

Lemma Stable_rerender2 a p :
  Stable (fst (rerender 2 a p)) /\ currentUser (fst (rerender 2 a p)) = user a.
Proof.
  pose proof (rerender_settles a p) as H. rewrite commit_unfold in H. cbv zeta in H.
  apply (f_equal fst) in H. cbn [fst] in H.
  set (p2 := fst (rerender 2 a p)) in *.
  apply (f_equal last) in H. cbn [last] in H.
  split.
  - eexists. split; [symmetry; exact H | reflexivity].
  - unfold currentUser. rewrite <- H. reflexivity.
Qed.

Lemma step_Stable p e :
  (last p = None \/ Stable p) ->
  (last (fst (step p e)) = None \/ Stable (fst (step p e)))
  /\ currentUser (fst (step p e))
     = match e with AuthChange a => user a | _ => currentUser p end.
Proof.
  intros Hp. destruct e as [a | o |]; unfold step.
  - destruct (Stable_rerender2 a p) as [A B]. split; [right; exact A | exact B].
  - destruct (last p) as [r|] eqn:Hl.
    + pose proof (Stable_rerender2 (seen r)
                    (mkProvider (applyAll (state p) (fetchPermissions_resume o)) (Some r)))
        as [A B].
      destruct (rerender 2 _ _) as [p2 acts2]. cbn [fst] in *.
      split; [right; exact A |]. rewrite B. unfold currentUser. rewrite Hl. reflexivity.
    + cbn [fst last]. split; [left; reflexivity|].
      unfold currentUser. cbn [last]. rewrite Hl. reflexivity.
  - destruct (last p) as [r|] eqn:Hl.
    + pose proof (Stable_rerender2 (seen r)
                    (mkProvider (applyAll (state p)
                       (fst (refreshPermissions_call (fetchPermissions r)))) (Some r)))
        as [A B].
      destruct (rerender 2 _ _) as [p2 acts2]. cbn [fst] in *.
      split; [right; exact A |]. rewrite B. unfold currentUser. rewrite Hl. reflexivity.
    + cbn [fst]. split; [left; exact Hl | reflexivity].
Qed.

(** X7. After the renders that any event causes, the provider is at rest:
    the [fetchPermissions] of its latest render closes over the user of
    that render and over the current [hasFetched].  This holds after an
    auth change on any provider, and after a settlement or a refresh on a
    provider that has rendered at least once. *)
Theorem provider_at_rest_after_event (p : Provider) (e : Event) :
  (forall a, e = AuthChange a ->
     Stable (fst (step p e)) /\ currentUser (fst (step p e)) = user a)
  /\ (last p <> None ->
       Stable (fst (step p e))).
Proof.
  split.
  - intros a ->. unfold step. apply Stable_rerender2.
  - intros Hl. destruct e as [a | o |]; unfold step.
    + apply Stable_rerender2.
    + destruct (last p) as [r|]; [|contradiction].
      pose proof (Stable_rerender2 (seen r)
                    (mkProvider (applyAll (state p) (fetchPermissions_resume o)) (Some r)))
        as [A _].
      destruct (rerender 2 _ _) as [p2 acts2]. exact A.
    + destruct (last p) as [r|]; [|contradiction].
      pose proof (Stable_rerender2 (seen r)
                    (mkProvider (applyAll (state p)
                       (fst (refreshPermissions_call (fetchPermissions r)))) (Some r)))
        as [A _].
      destruct (rerender 2 _ _) as [p2 acts2]. exact A.
Qed.

Lemma provider_at_rest_after_event_witness :
  Stable (fst (step mount (AuthChange (signedIn alice))))
  /\ Stable (fst (step aliceFetched Refresh)).
Proof.
  split.
  - exact (proj1 (proj1 (provider_at_rest_after_event mount (AuthChange (signedIn alice)))
                   (signedIn alice) eq_refl)).
  - apply (proj2 (provider_at_rest_after_event aliceFetched Refresh)). discriminate.
Defined.

(** *** Whose role is looked up *)

Lemma lookups_call ou h act :
  In act (roleLookups (fst (fetchPermissions_call (mkFetchEnv ou h)))) ->
  exists u, ou = Some u /\ act = rpc_get_user_role (user_id u).
Proof.
  unfold fetchPermissions_call. cbn [env_user env_hasFetched].
  destruct ou as [u|]; [destruct h|]; cbn; try tauto.
  intros [<-|[]]. exists u. auto.
Qed.

Lemma lookups_effect_fetch a h act :
  In act (roleLookups (effect_fetch a (mkFetchEnv (user a) h))) ->
  exists u, user a = Some u /\ act = rpc_get_user_role (user_id u).
Proof.
  unfold effect_fetch. destruct (authLoading a); [intros []|].
  destruct (user a) as [u|] eqn:E; [|intros []].
  intros H. destruct (lookups_call _ _ _ H) as (u' & Hu & ->).
  exists u'. auto.
Qed.

Lemma lookups_rerender2 a p act :
  In act (roleLookups (snd (rerender 2 a p))) ->
  exists u, user a = Some u /\ act = rpc_get_user_role (user_id u).
Proof.
  rewrite rerender2_unfold. cbv zeta. cbn [snd].
  rewrite !roleLookups_app, !in_app_iff. intros [[H|H]|H].
  - destruct (fetch_deps_changed _ _ _); [|destruct H].
    apply (lookups_effect_fetch _ _ _ H).
  - destruct (reset_deps_changed _ _); cbn in H; contradiction.
  - destruct (Bool.eqb _ _); [destruct H|].
    apply (lookups_effect_fetch _ _ _ H).
Qed.

Lemma lookups_step p e act :
  (last p = None \/ Stable p) ->
  In act (roleLookups (snd (step p e))) ->
  exists u, currentUser (fst (step p e)) = Some u
            /\ act = rpc_get_user_role (user_id u).
Proof.
  intros Hp. rewrite (proj2 (step_Stable p e Hp)).
  destruct e as [a | o |]; unfold step.
  - apply lookups_rerender2.
  - destruct (last p) as [r|] eqn:Hl.
    + pose proof (lookups_rerender2 (seen r)
                    (mkProvider (applyAll (state p) (fetchPermissions_resume o)) (Some r)) act)
        as H.
      destruct (rerender 2 _ _) as [p2 acts2]. cbn [snd] in *.
      rewrite roleLookups_app, (proj1 (resume_calls o)). cbn [app].
      unfold currentUser. rewrite Hl. exact H.
    + cbn [snd]. rewrite (proj1 (resume_calls o)). intros [].
  - destruct (last p) as [r|] eqn:Hl; [|intros []].
    destruct Hp as [Hp|(r' & Hr' & Hf)]; [discriminate|].
    assert (r' = r) by congruence. subst r'.
    pose proof (lookups_rerender2 (seen r)
                  (mkProvider (applyAll (state p)
                     (fst (refreshPermissions_call (fetchPermissions r)))) (Some r)) act)
      as H.
    destruct (rerender 2 _ _) as [p2 acts2]. cbn [snd] in *.
    rewrite roleLookups_app, in_app_iff.
    unfold currentUser. rewrite Hl. intros [K|K]; [|exact (H K)].
    rewrite Hf in K. unfold refreshPermissions_call in K.
    pose proof (lookups_call (user (seen r)) (hasFetched (state p)) act) as L.
    destruct (fetchPermissions_call _) as [acts pr]. cbn [fst] in *.
    apply L. exact K.
Qed.

Lemma usersOf_cons e es u : In u (usersOf es) -> In u (usersOf (e :: es)).
Proof.
  intros H. destruct e as [a | o |]; cbn [usersOf]; try exact H.
  destruct (user a); [right; exact H | exact H].
Qed.

Lemma lookups_run es : forall p act,
  (last p = None \/ Stable p) ->
  In act (roleLookups (snd (run p es))) ->
  exists u, (currentUser p = Some u \/ In u (usersOf es))
            /\ act = rpc_get_user_role (user_id u).
Proof.
  induction es as [|e es IH]; intros p act Hp; [intros []|].
  cbn [run].
  pose proof (lookups_step p e act Hp) as H1.
  destruct (step_Stable p e Hp) as [Hp1 Hc].
  destruct (step p e) as [p1 acts1]. cbn [fst snd] in *.
  specialize (IH p1 act Hp1).
  destruct (run p1 es) as [p2 acts2]. cbn [snd] in *.
  rewrite roleLookups_app, in_app_iff. intros [K|K].
  - destruct (H1 K) as (u & Hu & ->). exists u. split; [|reflexivity].
    rewrite Hc in Hu. destruct e as [a | o |]; [|left; exact Hu|left; exact Hu].
    right. cbn [usersOf]. rewrite Hu. left. reflexivity.
  - destruct (IH K) as (u & [Hu|Hu] & ->); exists u; (split; [|reflexivity]).
    + rewrite Hc in Hu. destruct e as [a | o |]; [|left; exact Hu|left; exact Hu].
      right. cbn [usersOf]. rewrite Hu. left. reflexivity.
    + right. apply usersOf_cons. exact Hu.
Qed.

(** X8. The provider only ever looks up the role of a user that an auth
    change handed to it: in any run from a freshly mounted provider, every
    role lookup carries the id of a user brought by one of the run's auth
    changes; and in a single step from a provider at rest, the id of the
    user of the latest render. *)
Theorem role_lookups_are_for_seen_users (es : list Event) :
  (forall act, In act (roleLookups (snd (run mount es))) ->
     exists u, In u (usersOf es) /\ act = rpc_get_user_role (user_id u))
  /\ (forall p e act, Stable p ->
        In act (roleLookups (snd (step p e))) ->
        exists u, currentUser (fst (step p e)) = Some u
                  /\ act = rpc_get_user_role (user_id u)).
Proof.
  split.
  - intros act H.
    destruct (lookups_run es mount act (or_introl eq_refl) H) as (u & [Hu|Hu] & ->).
    + discriminate.
    + exists u. auto.
  - intros p e act Hp. apply lookups_step. right; exact Hp.
Qed.

Lemma role_lookups_are_for_seen_users_witness :
  exists u, In u [alice; bob]
            /\ rpc_get_user_role "u-bob" = rpc_get_user_role (user_id u).
Proof.
  apply (proj1 (role_lookups_are_for_seen_users
                  [AuthChange (signedIn alice); Refresh; ServicesSettle adminReply;
                   AuthChange (signedIn bob)])).
  vm_compute. right. right. left. reflexivity.
Defined.

Lemma fulfilled_attempt_flags s u roleResult permissionsResult :
  loading (fetchAttempt s u (Fulfilled roleResult permissionsResult)) = false
  /\ hasFetched (fetchAttempt s u (Fulfilled roleResult permissionsResult)) = true.
Proof.
  destruct roleResult as [rd [re|]], permissionsResult as [pd [pe|]]; split; reflexivity.
Qed.

End ProviderFacts.

(** ** Fetch cycles *)

Section CycleFacts.
Import Resolver Sample.

Lemma different_id_different_user (prev : option User) (v : User) :
  optional_id prev <> Some (user_id v) ->
  same_user prev (Some v) = false
  /\ same_id (optional_id prev) (Some (user_id v)) = false.
Proof.
  intros H. split.
  - destruct (same_user prev (Some v)) eqn:E; [|reflexivity].
    apply same_user_eq in E. subst prev. contradiction.
  - destruct (same_id _ _) eqn:E; [|reflexivity].
    apply same_id_eq in E. contradiction.
Qed.

(** The provider after a render has brought a new signed-in identity. *)
Lemma sign_in_step p r v :
  last p = Some r ->
  optional_id (user (seen r)) <> Some (user_id v) ->
  let a := mkAuth (Some v) false in
  fst (step p (AuthChange a))
  = mkProvider (mkPState (userRole (state p)) (permissions (state p)) true false)
               (Some (mkRendered a (mkFetchEnv (Some v) false)))
  /\ roleLookups (snd (step p (AuthChange a))) = [rpc_get_user_role (user_id v)]
  /\ permissionListings (snd (step p (AuthChange a))) = [select_page_permissions].
Proof.
  intros Hl Hid a. destruct (different_id_different_user _ _ Hid) as [Hu Hi].
  unfold step. rewrite rerender2_unfold. cbv zeta. rewrite Hl.
  unfold fetch_deps_changed, reset_deps_changed. cbn [user a optional_id].
  rewrite Hu, Hi. cbn [negb orb].
  destruct (hasFetched (state p)) eqn:Hf; cbn; repeat split.
Qed.

(** A response that arrives while a user is signed in and nothing has been
    fetched yet is adopted, and the render it causes calls nothing. *)
Lemma response_step s u roleResult permissionsResult :
  hasFetched s = false ->
  let a := mkAuth (Some u) false in
  let o := Fulfilled roleResult permissionsResult in
  step (mkProvider s (Some (mkRendered a (mkFetchEnv (Some u) false)))) (ServicesSettle o)
  = (mkProvider (applyAll s (fetchPermissions_resume o))
       (Some (mkRendered a (mkFetchEnv (Some u) true))),
     fetchPermissions_resume o).
Proof.
  intros Hf a o. unfold step. cbn [last seen state].
  change (mkFetchEnv (Some u) false) with (mkFetchEnv (user a) false).
  rewrite rerender2_same_inputs. cbv zeta.
  destruct roleResult as [rd [re|]], permissionsResult as [pd [pe|]];
    cbn; rewrite ?app_nil_r; reflexivity.
Qed.

(** X9. A sign-in followed by the response is one clean cycle.  When a
    render (auth not loading) brings a user with a new id and then both
    calls resolve, the provider has issued exactly one role lookup, for
    that id, and one permission listing; its state is the one the fetch
    computes from the response, with [loading] false and [hasFetched]
    true; and from then on it counts as fetched for that id. *)
Theorem sign_in_cycle (p : Provider) (r : Rendered) (v : User)
    (roleResult : Response string) (permissionsResult : Response (list PagePermission)) :
  last p = Some r ->
  optional_id (user (seen r)) <> Some (user_id v) ->
  let o := Fulfilled roleResult permissionsResult in
  let es := [AuthChange (mkAuth (Some v) false); ServicesSettle o] in
  roleLookups (snd (run p es)) = [rpc_get_user_role (user_id v)]
  /\ permissionListings (snd (run p es)) = [select_page_permissions]
  /\ state (fst (run p es)) = fetchAttempt (state p) v o
  /\ loading (state (fst (run p es))) = false
  /\ FetchedFor (user_id v) (fst (run p es)).
Proof.
  intros Hl Hid o es.
  destruct (sign_in_step p r v Hl Hid) as (E1 & R1 & L1). cbv zeta in E1, R1, L1.
  assert (S : applyAll (mkPState (userRole (state p)) (permissions (state p)) true false)
                (fetchPermissions_resume o) = fetchAttempt (state p) v o).
  { unfold o. destruct roleResult as [rd [re|]], permissionsResult as [pd [pe|]];
      reflexivity. }
  destruct (fulfilled_attempt_flags (state p) v roleResult permissionsResult) as [A B].
  destruct (resume_calls o) as [RC LC].
  subst es. cbn [run].
  destruct (step p (AuthChange (mkAuth (Some v) false))) as [p1 acts1].
  cbn [fst snd] in *. subst p1. subst o.
  rewrite response_step by reflexivity.
  cbv iota beta. cbn [fst snd state].
  rewrite app_nil_r, roleLookups_app, permissionListings_app, R1, L1, RC, LC, S.
  repeat split; try assumption.
  eexists. split; [reflexivity|]. split; [reflexivity | exact B].
Qed.

Lemma sign_in_cycle_witness :
  let es := [AuthChange (signedIn bob); ServicesSettle adminReply] in
  roleLookups (snd (run aliceFetched es)) = [rpc_get_user_role "u-bob"]
  /\ permissionListings (snd (run aliceFetched es)) = [select_page_permissions]
  /\ FetchedFor "u-bob" (fst (run aliceFetched es)).
Proof.
  pose proof (sign_in_cycle aliceFetched
                (mkRendered (signedIn alice) (mkFetchEnv (Some alice) true)) bob
                (mkResponse (Some "admin") None)
                (mkResponse (Some [leadsRecord; settingsRecord]) None)
                eq_refl) as T.
  destruct T as (A & B & _ & _ & C); [discriminate|].
  cbv zeta. split; [exact A | split; [exact B | exact C]].
Defined.

(** X10. For a signed-in user (auth not loading, provider at rest) a call
    of [refreshPermissions] leads to exactly one role lookup, for that
    user, and one permission listing, whether or not something had been
    fetched before; afterwards [loading] is true and [hasFetched] is
    false until the response arrives. *)
Theorem refresh_fetches_once (p : Provider) (r : Rendered) (u : User) :
  last p = Some r ->
  seen r = mkAuth (Some u) false ->
  fetchPermissions r = mkFetchEnv (Some u) (hasFetched (state p)) ->
  roleLookups (snd (step p Refresh)) = [rpc_get_user_role (user_id u)]
  /\ permissionListings (snd (step p Refresh)) = [select_page_permissions]
  /\ loading (state (fst (step p Refresh))) = true
  /\ hasFetched (state (fst (step p Refresh))) = false
  /\ userRole (state (fst (step p Refresh))) = userRole (state p)
  /\ permissions (state (fst (step p Refresh))) = permissions (state p).
Proof.
  intros Hl Hs Hf. destruct p as [s l], r as [a f]. cbn [last seen fetchPermissions state] in *.
  subst l a f. unfold step. cbn [last seen fetchPermissions state].
  change (mkFetchEnv (Some u)) with (mkFetchEnv (user (mkAuth (Some u) false))).
  rewrite rerender2_same_inputs. cbv zeta.
  destruct s as [role perms ld []]; cbn; repeat split.
Qed.

Lemma refresh_fetches_once_witness :
  roleLookups (snd (step aliceFetched Refresh)) = [rpc_get_user_role "u-alice"]
  /\ permissionListings (snd (step aliceFetched Refresh)) = [select_page_permissions].
Proof.
  destruct (refresh_fetches_once aliceFetched
              (mkRendered (signedIn alice) (mkFetchEnv (Some alice) true)) alice
              eq_refl eq_refl eq_refl) as (A & B & _).
  split; [exact A | exact B].
Defined.

(** X11. While nothing is marked as fetched for the signed-in user (a
    fetch is pending or was rejected), a provider at rest behaves as
    follows.  A rejection only runs the [catch] and [finally] blocks: no
    new call, state reset to role 'user', no permissions, [loading] false,
    [hasFetched] false.  A render with the same auth value does nothing.
    A render with another user object carrying the same id issues a
    further role lookup and permission listing. *)
Theorem unfetched_rerenders (p : Provider) (r : Rendered) (u : User) :
  last p = Some r ->
  seen r = mkAuth (Some u) false ->
  fetchPermissions r = mkFetchEnv (Some u) false ->
  hasFetched (state p) = false ->
  (forall e,
     step p (ServicesSettle (Rejected e))
     = (mkProvider (mkPState "user" [] false false) (last p),
        fetchPermissions_resume (Rejected e)))
  /\ step p (AuthChange (seen r)) = (p, [])
  /\ (forall u', user_id u' = user_id u -> user_ref u' <> user_ref u ->
        roleLookups (snd (step p (AuthChange (mkAuth (Some u') false))))
        = [rpc_get_user_role (user_id u)]
        /\ permissionListings (snd (step p (AuthChange (mkAuth (Some u') false))))
           = [select_page_permissions]).
Proof.
  intros Hl Hs Hf Hh. destruct p as [s l], r as [a f].
  cbn [last seen fetchPermissions state] in *. subst l a f.
  destruct s as [role perms ld hf]. cbn [hasFetched] in Hh. subst hf.
  split; [|split].
  - intros e. unfold step. cbn [last seen state].
    change (mkFetchEnv (Some u) false)
      with (mkFetchEnv (user (mkAuth (Some u) false)) false).
    rewrite rerender2_same_inputs. reflexivity.
  - unfold step.
    change (mkFetchEnv (Some u) false)
      with (mkFetchEnv (user (mkAuth (Some u) false)) false).
    rewrite rerender2_same_inputs. reflexivity.
  - intros u' Hid Href. unfold step. rewrite rerender2_unfold. cbv zeta.
    unfold fetch_deps_changed, reset_deps_changed.
    cbn [last seen user optional_id state hasFetched same_user same_id].
    assert (E : user_eqb u u' = false).
    { unfold user_eqb. rewrite (proj2 (Nat.eqb_neq _ _)); [reflexivity|].
      intros K. apply Href. symmetry. exact K. }
    rewrite E, <- Hid, String.eqb_refl. cbn. rewrite Hid. split; reflexivity.
Qed.

Lemma unfetched_rerenders_witness :
  let p := fst (step aliceFetched (AuthChange (signedIn bob))) in
  step p (AuthChange (signedIn bob)) = (p, [])
  /\ roleLookups (snd (step p (AuthChange (signedIn (mkUser 9 "u-bob")))))
     = [rpc_get_user_role "u-bob"].
Proof.
  intros p.
  destruct (unfetched_rerenders p
              (mkRendered (signedIn bob) (mkFetchEnv (Some bob) false)) bob
              eq_refl eq_refl eq_refl eq_refl) as (_ & A & B).
  split; [exact A|].
  apply (B (mkUser 9 "u-bob")); [reflexivity | discriminate].
Defined.

(** X12. A late response cannot undo a sign-out.  For a provider at rest
    with no user (auth not loading, [hasFetched] false), any settlement of
    an earlier request, fulfilled or rejected, leaves the state at role
    'user', no permissions, [loading] false, [hasFetched] false once the
    renders it causes are done, and no service call is made. *)
Theorem late_response_after_sign_out (p : Provider) (r : Rendered) (o : Settlement) :
  last p = Some r ->
  seen r = mkAuth None false ->
  fetchPermissions r = mkFetchEnv None false ->
  hasFetched (state p) = false ->
  state (fst (step p (ServicesSettle o))) = mkPState "user" [] false false
  /\ roleLookups (snd (step p (ServicesSettle o))) = []
  /\ permissionListings (snd (step p (ServicesSettle o))) = [].
Proof.
  intros Hl Hs Hf Hh. destruct p as [s l], r as [a f].
  cbn [last seen fetchPermissions state] in *. subst l a f.
  destruct s as [role perms ld hf]. cbn [hasFetched] in Hh. subst hf.
  unfold step. cbn [last seen state].
  change (mkFetchEnv None false) with (mkFetchEnv (user (mkAuth None false)) false).
  rewrite rerender2_same_inputs. cbv zeta.
  destruct o as [[rd [re|]] [pd [pe|]] | e]; cbn; repeat split.
Qed.

Lemma late_response_after_sign_out_witness :
  let p := fst (step aliceFetched (AuthChange signedOut)) in
  state (fst (step p (ServicesSettle adminReply))) = mkPState "user" [] false false.
Proof.
  intros p.
  exact (proj1 (late_response_after_sign_out p
                  (mkRendered signedOut (mkFetchEnv None false)) adminReply
                  eq_refl eq_refl eq_refl eq_refl)).
Defined.

(** X13. When identity resolution ends without a user, on the first render
    or after a render in which auth was loading, the provider resets to
    role 'user', no permissions, [hasFetched] false and [loading] false,
    without any service call; the [loading] flag of the context value is
    then false as well. *)
Theorem resolves_signed_out (p : Provider) (a : Auth) :
  (last p = None \/ exists r, last p = Some r /\ authLoading (seen r) = true) ->
  user a = None ->
  authLoading a = false ->
  state (fst (step p (AuthChange a))) = mkPState "user" [] false false
  /\ roleLookups (snd (step p (AuthChange a))) = []
  /\ permissionListings (snd (step p (AuthChange a))) = []
  /\ (forall f, Context.loading
                  (Context.value a (state (fst (step p (AuthChange a)))) f) = false).
Proof.
  intros Hp Hu Hal.
  assert (D : fetch_deps_changed a (snd (useCallback_fetchPermissions a p)) (last p) = true).
  { unfold fetch_deps_changed. destruct Hp as [->|(r & -> & Hr)]; [reflexivity|].
    rewrite Hr, Hal. destruct (same_user _ _); reflexivity. }
  unfold step. rewrite rerender2_unfold. cbv zeta. rewrite D.
  unfold effect_fetch. rewrite Hu, Hal.
  destruct (reset_deps_changed a (last p)), (hasFetched (state p)) eqn:Hh;
    cbn; rewrite ?Hh; cbn; repeat split; intros; exact Hal.
Qed.

Lemma resolves_signed_out_witness :
  state (fst (run mount [AuthChange resolving; AuthChange signedOut]))
  = mkPState "user" [] false false.
Proof.
  change (run mount [AuthChange resolving; AuthChange signedOut])
    with (let p := fst (step mount (AuthChange resolving)) in
          let '(p2, acts2) := step p (AuthChange signedOut) in
          (p2, snd (step mount (AuthChange resolving)) ++ acts2 ++ [])).
  cbv zeta.
  pose proof (resolves_signed_out (fst (step mount (AuthChange resolving))) signedOut) as T.
  destruct (step (fst (step mount (AuthChange resolving))) (AuthChange signedOut))
    as [p2 acts2]. cbn [fst snd] in *.
  apply T; [right; eexists; split; reflexivity | reflexivity | reflexivity].
Defined.

End CycleFacts.

(** ** Failure defaults *)

Section FailureFacts.
Import Resolver Sample.

(** X14. Failures fall back to the least role and to open pages.  After a
    fetch in which the permission listing came back with an error, or in
    which the awaited calls rejected, the context value answers [true] to
    [hasPageAccess] for every route.  After a fetch in which the role
    lookup came back with an error, or the calls rejected, [isAdmin] and
    [isManager] are both false. *)
Theorem failed_fetch_defaults
    (s : PState) (u : User) (a : Auth) (f : FetchEnv)
    (roleResult : Response string) (permissionsResult : Response (list PagePermission))
    (rd : option string) (pd : option (list PagePermission)) (e : string) :
  let listingFailed := fetchAttempt s u (Fulfilled roleResult (mkResponse pd (Some e))) in
  let lookupFailed := fetchAttempt s u (Fulfilled (mkResponse rd (Some e)) permissionsResult) in
  let rejected := fetchAttempt s u (Rejected e) in
  (forall r, Context.hasPageAccess (Context.value a listingFailed f) r = true)
  /\ (forall r, Context.hasPageAccess (Context.value a rejected f) r = true)
  /\ Context.isAdmin (Context.value a lookupFailed f) = false
  /\ Context.isManager (Context.value a lookupFailed f) = false
  /\ Context.isAdmin (Context.value a rejected f) = false
  /\ Context.isManager (Context.value a rejected f) = false.
Proof.
  cbv zeta.
  destruct roleResult as [rd' [re|]], permissionsResult as [pd' [pe|]];
    repeat split.
Qed.

(** X15. The role flags of the context value and its access decisions
    agree.  [isAdmin] and [isManager] are never both true, and for a route
    that has a record the answer of [hasPageAccess] is the record's
    [admin_access] when [isAdmin], its [manager_access] when [isManager],
    and its [user_access] when neither flag is set. *)
Theorem context_flags_match_decision
    (a : Auth) (s : PState) (f : FetchEnv) (r : string) (p : PagePermission) :
  Access.FirstMatch (Access.normalizedRoute r) (permissions s) p ->
  let v := Context.value a s f in
  Context.hasPageAccess v r
  = (if Context.isAdmin v then admin_access p
     else if Context.isManager v then manager_access p
     else user_access p)
  /\ (Context.isAdmin v && Context.isManager v = false).
Proof.
  intros H. cbv zeta. unfold Context.value.
  cbn [Context.hasPageAccess Context.isAdmin Context.isManager].
  unfold Access.hasPageAccess. cbv zeta. rewrite (find_FirstMatch _ _ _ H).
  destruct (String.eqb_spec (userRole s) "admin") as [E|_].
  - rewrite E. split; reflexivity.
  - destruct (userRole s =? "manager"); [split; reflexivity|].
    destruct (userRole s =? "user"); split; reflexivity.
Qed.

Lemma context_flags_match_decision_witness :
  Context.hasPageAccess
    (Context.value (signedIn alice) (state aliceFetched) (mkFetchEnv (Some alice) true))
    "/settings/"
  = true.
Proof.
  assert (F : Access.FirstMatch (Access.normalizedRoute "/settings/")
                (permissions (state aliceFetched)) settingsRecord).
  { apply Access.FirstLater; [discriminate | apply Access.FirstHere; reflexivity]. }
  exact (proj1 (context_flags_match_decision (signedIn alice) (state aliceFetched)
                  (mkFetchEnv (Some alice) true) "/settings/" settingsRecord F)).
Defined.

End FailureFacts.

(** ** More on the route guards *)

Section RoutingFacts.
Import Guards Sample.

(** X16. The two guards never show their content for the same auth value.
    [ProtectedRoute] mounts the wrapped page only when auth has finished
    loading and a user is present, and then exactly that page inside
    layout, access guard and suspense boundary; [AuthRoute] mounts the
    wrapped page only when auth has finished loading and no user is
    present.  While auth is loading both show the loading screen and
    neither navigates. *)
Theorem guards_are_exclusive (a : Auth) (page : Page) :
  (pagesIn (ProtectedRoute a (Lazy page)) <> [] ->
     authLoading a = false /\ user a <> None
     /\ ProtectedRoute a (Lazy page)
        = FixedSidebarLayout (PageAccessGuard (Suspense ContentLoader (Lazy page))))
  /\ (pagesIn (AuthRoute a (Lazy page)) <> [] ->
        authLoading a = false /\ user a = None
        /\ AuthRoute a (Lazy page) = Lazy page)
  /\ (forall other,
        pagesIn (ProtectedRoute a (Lazy page)) = []
        \/ pagesIn (AuthRoute a (Lazy other)) = [])
  /\ (authLoading a = true ->
        ProtectedRoute a (Lazy page) = LoadingScreen
        /\ AuthRoute a (Lazy page) = LoadingScreen).
Proof.
  unfold ProtectedRoute, AuthRoute.
  destruct a as [[u|] []]; cbn;
    (split; [|split; [|split]]);
    try (intros H; exfalso; apply H; reflexivity);
    try (intros H; repeat split; (reflexivity || discriminate));
    try (intros other; first [left; reflexivity | right; reflexivity]).
Qed.

Lemma guards_are_exclusive_witness :
  ProtectedRoute (signedIn alice) (Lazy Settings)
  = FixedSidebarLayout (PageAccessGuard (Suspense ContentLoader (Lazy Settings)))
  /\ AuthRoute signedOut (Lazy Auth_) = Lazy Auth_.
Proof.
  split.
  - apply (proj1 (guards_are_exclusive (signedIn alice) Settings)). discriminate.
  - apply (proj1 (proj2 (guards_are_exclusive signedOut Auth_))). discriminate.
Defined.



End RoutingFacts.
